(** * node-nntp: the multi-line framer and the session controller

    A shallow embedding of [lib/streams/multiline.js] (the [MultilineStream]
    transform) and of [lib/nntp.js] (the [NNTP] client object), followed by
    the properties of the framing pipeline that the specification states.

    JavaScript strings are modelled as [string]; a character stands for a
    code unit of the Latin-1 range.  Chunks are the text that
    [buffer += chunk] appends. *)

From Stdlib Require Import String Ascii List Bool Arith ZArith NArith Lia.
Import ListNotations.
Open Scope string_scope.

(* ================================================================= *)
(** ** JavaScript primitives used by the sources *)

Module JS.

Definition TAB : ascii := "009"%char.
Definition LF : ascii := "010"%char.
Definition CR : ascii := "013"%char.

(** The two-character line ending ['\r\n']. *)
Definition CRLF : string := String CR (String LF EmptyString).

(** ['\t'] as a one-character string. *)
Definition TABS : string := String TAB EmptyString.

(** WhiteSpace and LineTerminator code units (below 256), the ones
    [String.prototype.trim] and [parseInt] strip. *)
Definition is_white_space (c : ascii) : bool :=
  existsb (Ascii.eqb c)
    ["009"; "010"; "011"; "012"; "013"; " "; "160"]%char.

Fixpoint trimStart (s : string) : string :=
  match s with
  | EmptyString => EmptyString
  | String c s' => if is_white_space c then trimStart s' else s
  end.

Fixpoint trimEnd (s : string) : string :=
  match s with
  | EmptyString => EmptyString
  | String c s' =>
      match trimEnd s' with
      | EmptyString =>
          if is_white_space c then EmptyString else String c EmptyString
      | t => String c t
      end
  end.

(** [s.trim()] *)
Definition trim (s : string) : string := trimStart (trimEnd s).

(** [s.substr(-n)]: the last [n] characters, the whole of [s] when it is
    shorter. *)
Definition substr_neg (n : nat) (s : string) : string :=
  substring (String.length s - n) n s.

(** [s.slice(0, -n)]: [s] without its last [n] characters, empty when it
    is shorter. *)
Definition slice0_neg (n : nat) (s : string) : string :=
  substring 0 (String.length s - n) s.

(** [s.substring(k)] for a number [k]: negative [k] counts as 0. *)
Definition substring_from (k : Z) (s : string) : string :=
  substring (Z.to_nat k) (String.length s) s.

(** [s.indexOf(c)] for a one-character [c]; -1 when absent. *)
Fixpoint indexOf (c : ascii) (s : string) : Z :=
  match s with
  | EmptyString => (-1)%Z
  | String d s' =>
      if Ascii.eqb d c then 0%Z
      else match indexOf c s' with
           | Zneg _ => (-1)%Z
           | i => (i + 1)%Z
           end
  end.

(** Whether [p] occurs at the start of [s]. *)
Fixpoint starts_with (p s : string) : bool :=
  match p, s with
  | EmptyString, _ => true
  | String a p', String b s' => Ascii.eqb a b && starts_with p' s'
  | String _ _, EmptyString => false
  end.

(** The scan of [s.split(sep)] for a non-empty separator, from left to
    right.  [skip] counts the characters of a matched separator still to
    pass over, [cur] is the piece being read. *)
Fixpoint split_from (sep s : string) (skip : nat) (cur : string)
  : list string :=
  match s with
  | EmptyString => [cur]
  | String c s' =>
      match skip with
      | S k => split_from sep s' k cur
      | O =>
          if starts_with sep s
          then cur :: split_from sep s' (String.length sep - 1) EmptyString
          else split_from sep s' 0 (cur ++ String c EmptyString)
      end
  end.

Fixpoint chars (s : string) : list string :=
  match s with
  | EmptyString => []
  | String c s' => String c EmptyString :: chars s'
  end.

(** [s.split(sep)] for a string separator; the empty separator splits
    between all characters. *)
Definition split (sep s : string) : list string :=
  match sep with
  | EmptyString => chars s
  | _ => split_from sep s 0 EmptyString
  end.

(** [parts.join(sep)] *)
Fixpoint join (sep : string) (parts : list string) : string :=
  match parts with
  | [] => EmptyString
  | [p] => p
  | p :: ps => p ++ sep ++ join sep ps
  end.

(** A JavaScript number as far as [parseInt] can produce one: [NaN], the
    negative zero, the double whose value is the integer [z] ([Num z],
    [Num 0] being the positive zero), and the two infinities. *)
Inductive number : Type :=
| NaN
| NegZero
| Num (z : Z)
| Infinity
| NegInfinity.

(** 2^53: every integer below it is the value of a double. *)
Definition two53 : Z := 9007199254740992.

(** The value of the double nearest to the integer [m >= 0], ties going
    to the even significand: below 2^53 the integer itself; from there on
    [m] is cut to its 53 leading bits, rounded on the bits cut off. *)
Definition nearest_double (m : Z) : Z :=
  if (m <? two53)%Z then m
  else
    let e := (Z.log2 m - 52)%Z in
    let q := Z.shiftr m e in
    let r := (m - Z.shiftl q e)%Z in
    let half := Z.shiftl 1 (e - 1) in
    let q' :=
      if (r <? half)%Z then q
      else if (half <? r)%Z then (q + 1)%Z
           else if Z.even q then q else (q + 1)%Z in
    Z.shiftl q' e.

(** The Number value of the integer [m >= 0] taken with a sign: zero keeps
    the sign, and a magnitude that rounds to 2^1024 or more is an
    infinity. *)
Definition to_number (negative : bool) (m : Z) : number :=
  if (m =? 0)%Z then (if negative then NegZero else Num 0)
  else
    let d := nearest_double m in
    if (Z.log2 d <? 1024)%Z
    then Num (if negative then (- d)%Z else d)
    else if negative then NegInfinity else Infinity.

Definition digit (c : ascii) : option Z :=
  let n := N_of_ascii c in
  if ((48 <=? n) && (n <=? 57))%N then Some (Z.of_N (n - 48)) else None.

(** The longest prefix of decimal digits, [None] when there is none. *)
Fixpoint digits (s : string) (acc : option Z) : option Z :=
  match s with
  | EmptyString => acc
  | String c s' =>
      match digit c with
      | Some d =>
          let a := match acc with Some a => a | None => 0%Z end in
          digits s' (Some (10 * a + d)%Z)
      | None => acc
      end
  end.

(** [parseInt(s, 10)]: leading white space and one sign are passed over,
    the longest run of decimal digits is read as an integer, all its
    digits counting, and the Number value of that integer is returned;
    with no digit the result is [NaN]. *)
Definition parseInt (s : string) : number :=
  let s1 := trimStart s in
  let '(negative, s2) :=
    match s1 with
    | String "-"%char r => (true, r)
    | String "+"%char r => (false, r)
    | _ => (false, s1)
    end in
  match digits s2 None with
  | None => NaN
  | Some m => to_number negative m
  end.

(** A computation that returns or throws. *)
Inductive exception : Type :=
| TypeError.

Inductive result (A : Type) : Type :=
| Return (a : A)
| Throw (ex : exception).
Arguments Return {A} a.
Arguments Throw {A} ex.

(** [ToString] on a value that is a string or [undefined] ([None]). *)
Definition ToString (v : option string) : string :=
  match v with
  | Some s => s
  | None => "undefined"
  end.

(** *** Objects as ordered property lists

    An object is the list of its own enumerable properties in [for-in]
    order: array-index keys first, ascending, then the other keys in the
    order they were created. *)
Definition object (V : Type) : Type := list (string * V).

Fixpoint all_digits (s : string) (acc : N) : option N :=
  match s with
  | EmptyString => Some acc
  | String c s' =>
      let n := N_of_ascii c in
      if ((48 <=? n) && (n <=? 57))%N
      then all_digits s' (10 * acc + (n - 48))%N
      else None
  end.

(** A key is an array index when it is the canonical decimal form of an
    integer below 2^32 - 1. *)
Definition array_index (k : string) : option N :=
  match k with
  | EmptyString => None
  | String c rest =>
      if Ascii.eqb c "0"%char && negb (String.eqb rest EmptyString)
      then None
      else match all_digits k 0 with
           | Some n => if (n <? 4294967295)%N then Some n else None
           | None => None
           end
  end.

Fixpoint get {V} (k : string) (o : object V) : option V :=
  match o with
  | [] => None
  | (k', v) :: o' => if String.eqb k k' then Some v else get k o'
  end.

Definition keys {V} (o : object V) : list string := map fst o.

Fixpoint update {V} (k : string) (v : V) (o : object V) : object V :=
  match o with
  | [] => []
  | (k', v') :: o' =>
      if String.eqb k k' then (k', v) :: o' else (k', v') :: update k v o'
  end.

Fixpoint insert_index {V} (n : N) (k : string) (v : V) (o : object V)
  : object V :=
  match o with
  | [] => [(k, v)]
  | (k', v') :: o' =>
      match array_index k' with
      | Some n' =>
          if (n <? n')%N then (k, v) :: o
          else (k', v') :: insert_index n k v o'
      | None => (k, v) :: o
      end
  end.

(** [o[k] = v] for a value [v] that is no object (the values stored here
    are booleans, strings and [undefined]): assigning such a value to
    [__proto__] creates no property. *)
Definition set {V} (k : string) (v : V) (o : object V) : object V :=
  if String.eqb k "__proto__" then o
  else
    match get k o with
    | Some _ => update k v o
    | None =>
        match array_index k with
        | Some n => insert_index n k v o
        | None => (o ++ [(k, v)])%list
        end
    end.

(** [o.hasOwnProperty(k)] for an object [o] whose own properties hold no
    function: an own property [hasOwnProperty] hides the inherited method,
    and calling it throws. *)
Definition hasOwnProperty {V} (o : object V) (k : string) : result bool :=
  match get "hasOwnProperty" o with
  | Some _ => Throw TypeError
  | None =>
      Return (match get k o with
              | Some _ => true
              | None => false
              end)
  end.

(** The [xtend] package (its [immutable] entry point, which tests keys
    with [Object.prototype.hasOwnProperty.call]): a fresh object that
    receives the own properties of each source in turn, later sources
    overriding earlier ones. *)
Definition xtend {V} (sources : list (object V)) : object V :=
  fold_left
    (fun target source =>
       fold_left (fun t kv => set (fst kv) (snd kv) t) source target)
    sources [].

End JS.

(* ================================================================= *)
(** ** [lib/streams/multiline.js] *)

Module MultilineStream.

(** The closure state of one [MultilineStream]: the [buffer] variable,
    the items handed to [self.push] so far, and whether [this.end()] has
    been called. *)
Record t : Type := mk {
  buffer : string;
  pushed : list string;
  ended : bool
}.

Definition create : t := mk EmptyString [] false.

(** ['.\r\n'] *)
Definition terminator : string := "." ++ JS.CRLF.

(** ['.\r\n' === buffer.substr(-3)] *)
Definition at_terminator (buffer : string) : bool :=
  String.eqb terminator (JS.substr_neg 3 buffer).

(** [buffer.slice(0, -3).trim().split('\r\n')] *)
Definition lines_of (buffer : string) : list string :=
  JS.split JS.CRLF (JS.trim (JS.slice0_neg 3 buffer)).

Definition _transform (chunk : string) (st : t) : t :=
  let buffer := st.(buffer) ++ chunk in
  if at_terminator buffer
  then mk buffer (st.(pushed) ++ lines_of buffer)%list true
  else mk buffer st.(pushed) st.(ended).

(** [stream.write(chunk)]: a Node writable stream on which [end()] was
    called takes no further chunk. *)
Definition write (st : t) (chunk : string) : t :=
  if st.(ended) then st else _transform chunk st.

Definition feed_from (st : t) (chunks : list string) : t :=
  fold_left write chunks st.

(** A fresh framer fed the chunks in order. *)
Definition feed (chunks : list string) : t := feed_from create chunks.

End MultilineStream.

(* ================================================================= *)
(** ** [lib/response.js] *)

Module Response.

(** Modelled from the spec: the Response object of [lib/response.js],
    which is not among the sources: a numeric status, the rest of the
    status line, and the body lines of a multi-line response. *)
Record t : Type := mk {
  status : Z;
  message : string;
  lines : list string
}.

(** Modelled from the spec: the status constants of [lib/response.js],
    with the codes the specification lists. *)
Definition GROUP_SELECTED : Z := 211.
Definition ARTICLE_RETRIEVED : Z := 221.
Definition NO_SUCH_GROUP : Z := 411.
Definition NO_SUCH_ARTICLE : Z := 430.

End Response.

(* ================================================================= *)
(** ** [lib/nntp.js] *)

Module NNTP.

(** The [Error] values that reach a callback:
    - [Upstream]: the error [getResponse] passes on (socket ['error'], or
      an exception caught by the domain);
    - [NoSuchArticle]: [new Error('No such article')];
    - [NoSuchGroup]: [new Error('No such group')];
    - [Unexpected r]:
      [new Error('Unexpected response received: ' + JSON.stringify(r))]. *)
Inductive error : Type :=
| Upstream (description : string)
| NoSuchArticle
| NoSuchGroup
| Unexpected (response : Response.t).

(** What [getResponse] hands to its callback through [done]:
    [done(error, null)], or [done(null, response)] with the Response that
    the pipeline produced. *)
Inductive outcome : Type :=
| Failed (e : error)
| Arrived (response : Response.t).

(** How an operation calls the callback it was given: [callback(error)]
    or [callback(null, value)]. *)
Inductive call (A : Type) : Type :=
| Err (e : error)
| Ok (value : A).
Arguments Err {A} e.
Arguments Ok {A} value.

(** Every operation hands a function to [getResponse] and writes its
    command line to the socket; below, an operation is that function,
    applied to the outcome of [getResponse]. *)

(** *** [connect] and [disconnect] *)

(** [this.options], with [undefined] as [None]. *)
Record options : Type := mkOptions {
  host : string;
  port : Z;
  secure : bool;
  username : option string;
  password : option string
}.

Definition defaults : options := mkOptions "localhost" 119 false None None.

(** The client object; [isConnected] is [undefined] ([None]) until first
    assigned. *)
Record client : Type := mkClient {
  client_options : options;
  isConnected : option bool
}.

(** [self.isConnected = b] *)
Definition set_isConnected (b : bool) (self : client) : client :=
  mkClient self.(client_options) (Some b).

Definition error_arg (o : outcome) : option error :=
  match o with
  | Failed e => Some e
  | Arrived _ => None
  end.

Definition response_arg (o : outcome) : option Response.t :=
  match o with
  | Failed _ => None
  | Arrived r => Some r
  end.

Section Callbacks.

(** A caller's callback sees the client object as it is when the callback
    is invoked, and yields whatever it does. *)
Context {R : Type}.
Variable callback : option error -> option Response.t -> client -> R.

(** The function [connect] gives to [getResponse]:
    [function (error, response) { self.isConnected = true;
    callback(error, response); }] *)
Definition connect (o : outcome) (self : client) : R :=
  let self := set_isConnected true self in
  callback (error_arg o) (response_arg o) self.

(** The listener [disconnect] puts on the socket's ['end']:
    [function () { self.isConnected = false; callback(); }] *)
Variable on_end : client -> R.

Definition disconnect (self : client) : R :=
  let self := set_isConnected false self in
  on_end self.

End Callbacks.

(** *** [article] *)

Record Article : Type := mkArticle {
  headers : list string;
  body : list string
}.

(** The loop variables [inBody], [body] and [headers]. *)
Record article_loop : Type := mkLoop {
  inBody : bool;
  loop_body : list string;
  loop_headers : list string
}.

(** [line.trim().length === 0] *)
Definition blank (line : string) : bool :=
  (String.length (JS.trim line) =? 0)%nat.

Definition article_step (st : article_loop) (line : string) : article_loop :=
  if blank line && negb st.(inBody)
  then mkLoop true st.(loop_body) st.(loop_headers)
  else
    if st.(inBody)
    then mkLoop st.(inBody) (st.(loop_body) ++ [line])%list st.(loop_headers)
    else mkLoop st.(inBody) st.(loop_body) (st.(loop_headers) ++ [line])%list.

Definition article (o : outcome) : call Article :=
  match o with
  | Failed e => Err e
  | Arrived response =>
      if (Response.NO_SUCH_ARTICLE =? response.(Response.status))%Z
      then Err NoSuchArticle
      else
        if negb (Response.ARTICLE_RETRIEVED =? response.(Response.status))%Z
        then Err (Unexpected response)
        else
          let st :=
            fold_left article_step response.(Response.lines)
              (mkLoop false [] []) in
          Ok (mkArticle st.(loop_headers) st.(loop_body))
  end.

(** *** [head] and [stat] *)

Definition head (o : outcome) : call Response.t :=
  match o with
  | Failed e => Err e
  | Arrived response => Ok response
  end.

Definition stat (o : outcome) : call Response.t :=
  match o with
  | Failed e => Err e
  | Arrived response => Ok response
  end.

(** *** [group] *)

Record Group : Type := mkGroup {
  name : option string;
  count : JS.number;
  first : JS.number;
  last : JS.number
}.

Definition group (o : outcome) : call Group :=
  match o with
  | Failed e => Err e
  | Arrived response =>
      if (Response.NO_SUCH_GROUP =? response.(Response.status))%Z
      then Err NoSuchGroup
      else
        if negb (Response.GROUP_SELECTED =? response.(Response.status))%Z
        then Err (Unexpected response)
        else
          let messageParts := JS.split " " response.(Response.message) in
          Ok (mkGroup
                (nth_error messageParts 3)
                (JS.parseInt (JS.ToString (nth_error messageParts 0)))
                (JS.parseInt (JS.ToString (nth_error messageParts 1)))
                (JS.parseInt (JS.ToString (nth_error messageParts 2))))
  end.

(** *** [parseOverview], [xover] and [xzver] *)

(** One parsed overview row: field name to string, or to [undefined]
    ([None]) when the line ran out of parts. *)
Definition message : Type := JS.object (option string).

(** [messagePart.substring(messagePart.indexOf(':') + 1).trim()] *)
Definition after_colon (messagePart : string) : string :=
  JS.trim (JS.substring_from (JS.indexOf ":" messagePart + 1) messagePart).

(** [format[field] ? ... : messagePart], where [messagePart] is what
    [messageParts.shift()] gave; a method call on [undefined] throws. *)
Definition field_value (full : bool) (messagePart : option string)
  : JS.result (option string) :=
  if full
  then match messagePart with
       | Some part => JS.Return (Some (after_colon part))
       | None => JS.Throw JS.TypeError
       end
  else JS.Return messagePart.

(** The [for (var field in format)] loop, [fields] being the properties
    of [format] still to visit. *)
Fixpoint parse_fields (format fields : JS.object bool)
    (messageParts : list string) (msg : message) : JS.result message :=
  match fields with
  | [] => JS.Return msg
  | (field, full) :: fields' =>
      match JS.hasOwnProperty format field with
      | JS.Throw ex => JS.Throw ex
      | JS.Return false => parse_fields format fields' messageParts msg
      | JS.Return true =>
          match field_value full (hd_error messageParts) with
          | JS.Throw ex => JS.Throw ex
          | JS.Return v =>
              parse_fields format fields' (tl messageParts)
                (JS.set field v msg)
          end
      end
  end.

(** The function given to [overview.forEach], up to [messages.push]. *)
Definition parse_line (format : JS.object bool) (line : string)
  : JS.result message :=
  parse_fields format format (JS.split JS.TABS line) [].

Fixpoint parseOverview (overview : list string) (format : JS.object bool)
  : JS.result (list message) :=
  match overview with
  | [] => JS.Return []
  | line :: overview' =>
      match parse_line format line with
      | JS.Throw ex => JS.Throw ex
      | JS.Return msg =>
          match parseOverview overview' format with
          | JS.Throw ex => JS.Throw ex
          | JS.Return messages => JS.Return (msg :: messages)
          end
      end
  end.

Definition xover (format : JS.object bool) (o : outcome)
  : JS.result (call (list message)) :=
  let format := JS.xtend [[("number", false)]; format] in
  match o with
  | Failed e => JS.Return (Err e)
  | Arrived response =>
      match parseOverview response.(Response.lines) format with
      | JS.Throw ex => JS.Throw ex
      | JS.Return messages => JS.Return (Ok messages)
      end
  end.

Definition xzver (format : JS.object bool) (o : outcome)
  : JS.result (call (list message)) :=
  let format := JS.xtend [[("number", false)]; format] in
  match o with
  | Failed e => JS.Return (Err e)
  | Arrived response =>
      match parseOverview response.(Response.lines) format with
      | JS.Throw ex => JS.Throw ex
      | JS.Return messages => JS.Return (Ok messages)
      end
  end.

End NNTP.

(* ================================================================= *)
(** ** Vocabulary of the statements *)

Module Spec.

(** [piece sep l]: in [l ++ sep] the separator occurs at the end only, so
    that [l] is read back as one piece by a split on [sep]. *)
Fixpoint piece (sep l : string) : bool :=
  match l with
  | EmptyString => true
  | String _ l' => negb (JS.starts_with sep (l ++ sep)) && piece sep l'
  end.

(** No chunk but possibly the last leaves the buffer ending in
    ['.\r\n']. *)
Fixpoint no_early_end (buffer : string) (chunks : list string) : bool :=
  match chunks with
  | [] => true
  | [_] => true
  | c :: rest =>
      negb (MultilineStream.at_terminator (buffer ++ c))
      && no_early_end (buffer ++ c) rest
  end.

(** The bytes on the wire of a multi-line body: every line followed by
    CR LF, then the line of a single dot. *)
Definition wire (body : list string) : string :=
  JS.join JS.CRLF body ++ JS.CRLF ++ MultilineStream.terminator.

(** A body with a line whose wire form starts with a doubled dot. *)
Definition stuffed (pre : list string) (rest : string) (post : list string)
  : list string :=
  (pre ++ (".." ++ rest)%string :: post)%list.

(** The overview line [42 TAB Hello TAB From: a@b]. *)
Definition example_line : string :=
  "42" ++ JS.TABS ++ "Hello" ++ JS.TABS ++ "From: a@b".

(** A key that assignment appends to an object that lacks it. *)
Definition ordinary_key (k : string) : Prop :=
  JS.array_index k = None /\ k <> "__proto__".

(** A format object of a caller that has no [number] key of its own, no
    [hasOwnProperty] key, no [__proto__] key and no array-index key, its
    keys being distinct as in any object. *)
Definition plain_format (format : JS.object bool) : Prop :=
  NoDup ("number" :: "hasOwnProperty" :: JS.keys format)
  /\ Forall ordinary_key (JS.keys format).

(** [msg] is [line] read against [number] followed by the keys of
    [format]: the first part under [number] as it is, the part after it
    under the first key, and so on, each taken according to its flag. *)
Definition row_of (format : JS.object bool) (line : string)
    (msg : NNTP.message) : Prop :=
  exists t ts,
    JS.split JS.TABS line = t :: ts
    /\ JS.get "number" msg = Some (Some t)
    /\ forall i field full,
        nth_error format i = Some (field, full) ->
        exists v,
          NNTP.field_value full (nth_error ts i) = JS.Return v
          /\ JS.get field msg = Some v.

End Spec.

(* ================================================================= *)
(** ** [lib/nntp.js], continued: [overviewFormat] *)

Module OverviewFormat.

(** [c.toLowerCase()] on a code unit below 256: the letters A to Z and
    the capital letters from U+00C0 to U+00DE (the sign U+00D7 apart) move
    up by 32. *)
Definition lower (c : ascii) : ascii :=
  let n := N_of_ascii c in
  if (((65 <=? n) && (n <=? 90))
      || ((192 <=? n) && (n <=? 222) && negb (n =? 215)))%N
  then ascii_of_N (n + 32)
  else c.

(** [s.toLowerCase()] *)
Fixpoint toLowerCase (s : string) : string :=
  match s with
  | EmptyString => EmptyString
  | String c s' => String (lower c) (toLowerCase s')
  end.

(** [format[k] = v] for the Array [format] and a boolean [v]: assigning to
    [length] sets the length to 0 or 1 and removes the elements from that
    index on, creating no property; any other key is assigned as on an
    object. *)
Definition array_set (k : string) (v : bool) (format : JS.object bool)
  : JS.object bool :=
  if String.eqb k "length"
  then
    filter
      (fun kv =>
         match JS.array_index (fst kv) with
         | Some n => (n <? (if v then 1 else 0))%N
         | None => true
         end)
      format
  else JS.set k v format.

(** The function given to [response.lines.forEach]. *)
Definition format_step (format : JS.object bool) (line : string)
  : JS.object bool :=
  if String.eqb (toLowerCase (JS.substr_neg 5 line)) ":full"
  then array_set (toLowerCase (JS.slice0_neg 5 line)) true format
  else array_set (toLowerCase (JS.slice0_neg 1 line)) false format.

(** The function [overviewFormat] gives to [getResponse]. *)
Definition overviewFormat (o : NNTP.outcome) : NNTP.call (JS.object bool) :=
  match o with
  | NNTP.Failed e => NNTP.Err e
  | NNTP.Arrived response =>
      NNTP.Ok (fold_left format_step response.(Response.lines) [])
  end.

End OverviewFormat.

(* ================================================================= *)
(** ** [lib/nntp.js], continued: the authentication exchange *)

Module Exchange.

(** The client and its socket during a run of exchanges: the client
    object, the data written to the socket so far, and the outcomes that
    the successive calls of [getResponse] will hand over, in order.  When
    none is left, the response awaited never comes. *)
Record world : Type := mkWorld {
  self : NNTP.client;
  written : list string;
  incoming : list NNTP.outcome
}.

(** The [Error] values that reach the callback of [authenticate] and of
    [connectAndAuthenticate]: one that [getResponse] passed on, or
    [new Error('Password is required')]. *)
Inductive error : Type :=
| Passed (e : NNTP.error)
| PasswordRequired.

(** The arguments of a call of the callback: [callback(error)],
    [callback(null, response)] or, from [getResponse] itself,
    [callback(error, response)]. *)
Definition args : Type := (option error * option Response.t)%type.

(** A run either ends with the caller's callback invoked on some
    arguments, or leaves it waiting ([None]). *)
Definition run : Type := world -> option args * world.

(** The caller's callback. *)
Definition deliver (a : args) : run := fun w => (Some a, w).

(** [socket.write(data)] *)
Definition socket_write (data : string) (w : world) : world :=
  mkWorld w.(self) (w.(written) ++ [data])%list w.(incoming).

(** [getResponse(false, false, k)]: [k] is called with the outcome, when
    one comes. *)
Definition getResponse (k : NNTP.outcome -> run) : run :=
  fun w =>
    match w.(incoming) with
    | [] => (None, w)
    | o :: rest => k o (mkWorld w.(self) w.(written) rest)
    end.

(** The arguments [done] gives: [(error, null)] or [(null, response)]. *)
Definition from_getResponse (o : NNTP.outcome) : args :=
  (option_map Passed (NNTP.error_arg o), NNTP.response_arg o).

(** [authInfo(type, value, callback)]: [callback] goes to [getResponse],
    and the command line is written before the response can come. *)
Definition authInfo (type : string) (value : option string)
    (callback : NNTP.outcome -> run) : run :=
  fun w =>
    getResponse callback
      (socket_write
         ("AUTHINFO " ++ type ++ " " ++ JS.ToString value ++ JS.CRLF) w).

Definition authenticate (callback : args -> run) : run :=
  fun w =>
    authInfo "USER" w.(self).(NNTP.client_options).(NNTP.username)
      (fun o w =>
         match o with
         | NNTP.Failed e => callback (Some (Passed e), None) w
         | NNTP.Arrived response =>
             if (response.(Response.status) =? 381)%Z
             then
               match w.(self).(NNTP.client_options).(NNTP.password) with
               | None => callback (Some PasswordRequired, None) w
               | Some p =>
                   authInfo "PASS" (Some p)
                     (fun o => callback (from_getResponse o)) w
               end
             else callback (None, Some response) w
         end)
      w.

(** [connect(callback)]: no command is written; the greeting is
    awaited. *)
Definition connect (callback : args -> run) : run :=
  getResponse
    (fun o w =>
       NNTP.connect
         (fun error response self' =>
            callback (option_map Passed error, response)
              (mkWorld self' w.(written) w.(incoming)))
         o w.(self)).

Definition connectAndAuthenticate (callback : args -> run) : run :=
  connect
    (fun a w =>
       match a with
       | (Some e, _) => callback (Some e, None) w
       | (None, response) =>
           match w.(self).(NNTP.client_options).(NNTP.username) with
           | None => callback (None, response) w
           | Some _ => authenticate callback w
           end
       end).

End Exchange.

(* ================================================================= *)
(** ** Vocabulary of the statements, continued *)

Module Says.

(** Only white space. *)
Definition white (s : string) : bool :=
  forallb JS.is_white_space (list_ascii_of_string s).

(** The character occurs in the string. *)
Fixpoint has (c : ascii) (s : string) : bool :=
  match s with
  | EmptyString => false
  | String d s' => Ascii.eqb d c || has c s'
  end.

(** No chunk at all leaves the buffer ending in ['.\r\n']. *)
Fixpoint never_ends (buffer : string) (chunks : list string) : bool :=
  match chunks with
  | [] => true
  | c :: rest =>
      negb (MultilineStream.at_terminator (buffer ++ c))
      && never_ends (buffer ++ c) rest
  end.

(** A key that assignment appends to an Array that lacks it. *)
Definition plain_key (k : string) : Prop :=
  Spec.ordinary_key k /\ k <> "length".

(** The entry [overviewFormat] makes of a line that ends in [:full], in
    any case of letters, and of one that does not. *)
Definition full_line (line : string) : bool :=
  String.eqb (OverviewFormat.toLowerCase (JS.substr_neg 5 line)) ":full".

Definition entry (line : string) : string * bool :=
  if full_line line
  then (OverviewFormat.toLowerCase (JS.slice0_neg 5 line), true)
  else (OverviewFormat.toLowerCase (JS.slice0_neg 1 line), false).

(** The line of [LIST OVERVIEW.FMT] for a header field: its name and a
    colon, followed by [full] when the field comes with its name. *)
Definition render (field : string * bool) : string :=
  fst field ++ (if snd field then ":full" else ":").

(** The entry of the format for that line. *)
Definition lowered (field : string * bool) : string * bool :=
  (OverviewFormat.toLowerCase (fst field), snd field).

(** [self.options.username] and [self.options.password]. *)
Definition username_of (w : Exchange.world) : option string :=
  w.(Exchange.self).(NNTP.client_options).(NNTP.username).

Definition password_of (w : Exchange.world) : option string :=
  w.(Exchange.self).(NNTP.client_options).(NNTP.password).

(** The two command lines of the authentication exchange. *)
Definition USER (username : option string) : string :=
  "AUTHINFO USER " ++ JS.ToString username ++ JS.CRLF.

Definition PASS (password : string) : string :=
  "AUTHINFO PASS " ++ password ++ JS.CRLF.

End Says.

(* ================================================================= *)
(** ** Strings *)

Section StringFacts.

Lemma append_nil_r (s : string) : s ++ EmptyString = s.
Proof. induction s as [|c s IH]; simpl; [reflexivity | now rewrite IH]. Qed.

Lemma append_assoc (a b c : string) : (a ++ b) ++ c = a ++ (b ++ c).
Proof. induction a as [|x a IH]; simpl; [reflexivity | now rewrite IH]. Qed.

Lemma length_append (a b : string) :
  String.length (a ++ b) = String.length a + String.length b.
Proof. induction a as [|x a IH]; simpl; [reflexivity | now rewrite IH]. Qed.

Lemma substring_all (s : string) : substring 0 (String.length s) s = s.
Proof. induction s as [|c s IH]; simpl; [reflexivity | now rewrite IH]. Qed.

Lemma substring_take (a b : string) :
  substring 0 (String.length a) (a ++ b) = a.
Proof.
  induction a as [|x a IH]; simpl.
  - destruct b; reflexivity.
  - now rewrite IH.
Qed.

Lemma substring_drop (a b : string) (n : nat) :
  substring (String.length a) n (a ++ b) = substring 0 n b.
Proof.
  induction a as [|x a IH]; simpl; [reflexivity | exact IH].
Qed.

Lemma slice0_neg_append (a b : string) :
  JS.slice0_neg (String.length b) (a ++ b) = a.
Proof.
  unfold JS.slice0_neg. rewrite length_append.
  replace (String.length a + String.length b - String.length b)
    with (String.length a) by lia.
  apply substring_take.
Qed.

Lemma substr_neg_append (a b : string) :
  JS.substr_neg (String.length b) (a ++ b) = b.
Proof.
  unfold JS.substr_neg. rewrite length_append.
  replace (String.length a + String.length b - String.length b)
    with (String.length a) by lia.
  rewrite substring_drop. apply substring_all.
Qed.

End StringFacts.

(* ================================================================= *)
(** ** The multi-line framer *)

Section Framer.

Import MultilineStream.

Lemma at_terminator_append (a : string) :
  at_terminator (a ++ terminator) = true.
Proof.
  unfold at_terminator.
  change 3 with (String.length terminator).
  rewrite substr_neg_append. apply String.eqb_refl.
Qed.

Lemma lines_of_append (a : string) :
  lines_of (a ++ terminator) = JS.split JS.CRLF (JS.trim a).
Proof.
  unfold lines_of.
  change 3 with (String.length terminator).
  now rewrite slice0_neg_append.
Qed.

(** Chunks that never leave the buffer ending in ['.\r\n'] before the
    last one are the same to the framer as their concatenation. *)
Lemma feed_from_join (chunks : list string) :
  forall st,
    chunks <> [] ->
    ended st = false ->
    Spec.no_early_end (buffer st) chunks = true ->
    feed_from st chunks = _transform (JS.join EmptyString chunks) st.
Proof.
  induction chunks as [|c rest IH]; intros st Hne Hend Hearly.
  - now contradiction Hne.
  - destruct rest as [|c2 rest].
    + simpl. unfold write. now rewrite Hend.
    + change (Spec.no_early_end (buffer st) (c :: c2 :: rest))
        with (negb (at_terminator (buffer st ++ c))
              && Spec.no_early_end (buffer st ++ c) (c2 :: rest)) in Hearly.
      apply andb_true_iff in Hearly as [Hc Hrest].
      apply negb_true_iff in Hc.
      change (feed_from st (c :: c2 :: rest))
        with (feed_from (write st c) (c2 :: rest)).
      assert (Hw : write st c = mk (buffer st ++ c) (pushed st) false).
      { unfold write, _transform. rewrite Hend, Hc. reflexivity. }
      rewrite Hw, IH; [|discriminate|reflexivity|exact Hrest].
      change (JS.join EmptyString (c :: c2 :: rest))
        with (c ++ JS.join EmptyString (c2 :: rest)).
      unfold _transform. simpl buffer. simpl pushed. simpl ended.
      rewrite append_assoc, Hend. reflexivity.
Qed.

Lemma feed_join (chunks : list string) :
  chunks <> [] ->
  Spec.no_early_end EmptyString chunks = true ->
  pushed (feed chunks) = pushed (feed [JS.join EmptyString chunks]).
Proof.
  intros Hne Hearly. unfold feed.
  rewrite feed_from_join by (auto; reflexivity).
  reflexivity.
Qed.

End Framer.

(* ================================================================= *)
(** ** [split] undoes [join] *)

Section SplitJoin.

Lemma starts_with_refl_append (p s : string) : JS.starts_with p (p ++ s) = true.
Proof.
  induction p as [|a p IH]; simpl; [reflexivity|].
  now rewrite Ascii.eqb_refl, IH.
Qed.

(** [starts_with p] reads at most [length p] characters. *)
Lemma starts_with_append_long (p a b : string) :
  String.length p <= String.length a ->
  JS.starts_with p (a ++ b) = JS.starts_with p a.
Proof.
  revert a. induction p as [|x p IH]; intros a Hlen; [reflexivity|].
  destruct a as [|y a]; simpl in *; [lia|].
  rewrite IH by lia. reflexivity.
Qed.

Lemma starts_with_append_true (p a b : string) :
  JS.starts_with p a = true -> JS.starts_with p (a ++ b) = true.
Proof.
  revert a. induction p as [|x p IH]; intros a H; [reflexivity|].
  destruct a as [|y a]; simpl in *; [discriminate|].
  apply andb_true_iff in H as [Hxy Hp].
  rewrite Hxy, (IH _ Hp). reflexivity.
Qed.

Lemma split_from_skip (sep x rest cur : string) :
  JS.split_from sep (x ++ rest) (String.length x) cur
  = JS.split_from sep rest 0 cur.
Proof.
  induction x as [|c x IH]; simpl; [reflexivity | exact IH].
Qed.

Variable sep0 : ascii.
Variable sep' : string.
Let sep : string := String sep0 sep'.

Lemma piece_head (c : ascii) (l rest : string) :
  Spec.piece sep (String c l) = true ->
  JS.starts_with sep (String c l ++ sep ++ rest) = false
  /\ Spec.piece sep l = true.
Proof.
  intros H. simpl Spec.piece in H.
  apply andb_true_iff in H as [Hhere Hl]. apply negb_true_iff in Hhere.
  split; [|exact Hl].
  rewrite <- append_assoc.
  rewrite starts_with_append_long; [exact Hhere|].
  change (String c l ++ sep) with (String c (l ++ sep)).
  simpl String.length. rewrite length_append. unfold sep. simpl. lia.
Qed.

(** A piece followed by the separator is read back as it is. *)
Lemma split_from_piece (l rest : string) :
  forall cur,
    Spec.piece sep l = true ->
    JS.split_from sep (l ++ sep ++ rest) 0 cur
    = (cur ++ l) :: JS.split_from sep rest 0 EmptyString.
Proof.
  induction l as [|c l IH]; intros cur Hl.
  - rewrite append_nil_r.
    change (EmptyString ++ sep ++ rest) with (String sep0 (sep' ++ rest)).
    cbn [JS.split_from].
    change (String sep0 (sep' ++ rest)) with (sep ++ rest).
    rewrite starts_with_refl_append.
    change (String.length sep - 1) with (String.length sep' - 0).
    rewrite Nat.sub_0_r, split_from_skip. reflexivity.
  - destruct (piece_head c l rest Hl) as [Hhere Hl'].
    change (String c l ++ sep ++ rest) with (String c (l ++ sep ++ rest)).
    cbn [JS.split_from].
    change (String c (l ++ sep ++ rest)) with (String c l ++ sep ++ rest).
    rewrite Hhere, (IH _ Hl'), append_assoc. reflexivity.
Qed.

(** A piece at the end of the text is read back as it is. *)
Lemma split_from_last (l : string) :
  forall cur,
    Spec.piece sep l = true ->
    JS.split_from sep l 0 cur = [cur ++ l].
Proof.
  induction l as [|c l IH]; intros cur Hl.
  - now rewrite append_nil_r.
  - simpl Spec.piece in Hl.
    apply andb_true_iff in Hl as [Hhere Hl']. apply negb_true_iff in Hhere.
    cbn [JS.split_from].
    destruct (JS.starts_with sep (String c l)) eqn:Hs.
    + apply (starts_with_append_true _ _ sep) in Hs.
      change (JS.starts_with sep (String c l ++ sep) = false) in Hhere.
      rewrite Hs in Hhere. discriminate Hhere.
    + rewrite (IH _ Hl'), append_assoc. reflexivity.
Qed.

Theorem split_join (parts : list string) :
  parts <> [] ->
  forallb (Spec.piece sep) parts = true ->
  JS.split sep (JS.join sep parts) = parts.
Proof.
  unfold JS.split. simpl.
  induction parts as [|p parts IH]; intros Hne Hall; [now contradiction Hne|].
  simpl forallb in Hall. apply andb_true_iff in Hall as [Hp Hparts].
  destruct parts as [|q parts].
  - simpl. now rewrite split_from_last.
  - change (JS.join sep (p :: q :: parts))
      with (p ++ sep ++ JS.join sep (q :: parts)).
    rewrite split_from_piece by exact Hp.
    rewrite IH by (discriminate || exact Hparts). reflexivity.
Qed.

Lemma split_from_nonempty (s : string) :
  forall skip cur, JS.split_from sep s skip cur <> [].
Proof.
  induction s as [|c s IH]; intros skip cur; cbn [JS.split_from];
    [discriminate|].
  destruct skip; [|apply IH].
  destruct (JS.starts_with sep (String c s)); [discriminate | apply IH].
Qed.

End SplitJoin.

(* ================================================================= *)
(** ** [trim] *)

Section Trim.

Lemma trimEnd_white (w : string) :
  forallb JS.is_white_space (list_ascii_of_string w) = true ->
  JS.trimEnd w = EmptyString.
Proof.
  induction w as [|c w IH]; simpl; [reflexivity|].
  intros H. apply andb_true_iff in H as [Hc Hw].
  now rewrite (IH Hw), Hc.
Qed.

Lemma trimEnd_append_white (a w : string) :
  forallb JS.is_white_space (list_ascii_of_string w) = true ->
  JS.trimEnd (a ++ w) = JS.trimEnd a.
Proof.
  intros Hw. induction a as [|c a IH]; simpl.
  - now apply trimEnd_white.
  - now rewrite IH.
Qed.

Lemma trim_append_CRLF (a : string) : JS.trim (a ++ JS.CRLF) = JS.trim a.
Proof.
  unfold JS.trim. now rewrite trimEnd_append_white.
Qed.

End Trim.

(* ================================================================= *)
(** ** Properties of the multi-line framer *)

Section FramerProperties.

Import MultilineStream.

Lemma feed_terminated (a : string) :
  feed [a ++ terminator]
  = mk (a ++ terminator) (JS.split JS.CRLF (JS.trim a)) true.
Proof.
  unfold feed, feed_from. cbn [fold_left].
  unfold write. cbn [ended create].
  unfold _transform. cbn [buffer pushed create].
  change (EmptyString ++ (a ++ terminator)) with (a ++ terminator).
  now rewrite at_terminator_append, lines_of_append.
Qed.

(** The framer on a whole body delivered with its terminator, in any
    chunks none of which but the last leaves the buffer ending in
    ['.\r\n']: the lines come out as they were written. *)
Lemma feed_wire (body chunks : list string) :
  body <> [] ->
  forallb (Spec.piece JS.CRLF) body = true ->
  JS.trim (JS.join JS.CRLF body) = JS.join JS.CRLF body ->
  JS.join EmptyString chunks = Spec.wire body ->
  Spec.no_early_end EmptyString chunks = true ->
  pushed (feed chunks) = body.
Proof.
  intros Hbody Hpieces Htrim Hchunks Hearly.
  assert (Hne : chunks <> []).
  { intros ->. apply (f_equal String.length) in Hchunks.
    unfold Spec.wire in Hchunks. rewrite !length_append in Hchunks.
    simpl in Hchunks. lia. }
  rewrite (feed_join chunks Hne Hearly), Hchunks.
  unfold Spec.wire. rewrite <- append_assoc, feed_terminated.
  cbn [pushed]. rewrite trim_append_CRLF, Htrim.
  apply (split_join JS.CR (String JS.LF EmptyString)); assumption.
Qed.

(** C1, where the code departs from the claim: the body of the two lines
    [a.] and [b], delivered whole, comes out as those two lines; the same
    bytes delivered in two chunks, the first ending after [a.] CR LF,
    come out as the single line [a], the stream being ended by the first
    chunk already.  Were the second chunk still transformed, the lines
    would be [a], [a.], [b]. *)
Theorem framer_chunk_boundary_changes_lines :
  JS.join EmptyString ["a." ++ JS.CRLF; "b" ++ JS.CRLF ++ terminator]
  = Spec.wire ["a."; "b"]
  /\ pushed (feed [Spec.wire ["a."; "b"]]) = ["a."; "b"]
  /\ pushed (feed ["a." ++ JS.CRLF; "b" ++ JS.CRLF ++ terminator]) = ["a"]
  /\ feed ["a." ++ JS.CRLF] = mk ("a." ++ JS.CRLF) ["a"] true
  /\ pushed (fold_left (fun st c => _transform c st)
               ["a." ++ JS.CRLF; "b" ++ JS.CRLF ++ terminator] create)
     = ["a"; "a."; "b"].
Proof. repeat split. Qed.

(** C2, as the code has it: a body whose lines hold no CR LF and that
    neither starts nor ends with white space, delivered with its
    terminator in chunks none of which but the last leaves the buffer
    ending in ['.\r\n'], comes out line for line as it was sent; a line
    sent with a doubled leading dot comes out with both dots. *)
Theorem framer_keeps_doubled_dot (pre post : list string) (rest : string)
    (chunks : list string) :
  forallb (Spec.piece JS.CRLF) (Spec.stuffed pre rest post) = true ->
  JS.trim (JS.join JS.CRLF (Spec.stuffed pre rest post))
  = JS.join JS.CRLF (Spec.stuffed pre rest post) ->
  JS.join EmptyString chunks = Spec.wire (Spec.stuffed pre rest post) ->
  Spec.no_early_end EmptyString chunks = true ->
  pushed (feed chunks) = Spec.stuffed pre rest post
  /\ nth_error (pushed (feed chunks)) (List.length pre) = Some (".." ++ rest).
Proof.
  intros Hpieces Htrim Hchunks Hearly.
  assert (Hout : pushed (feed chunks) = Spec.stuffed pre rest post).
  { apply feed_wire; try assumption. unfold Spec.stuffed. now destruct pre. }
  split; [exact Hout|].
  rewrite Hout. unfold Spec.stuffed.
  rewrite nth_error_app2, Nat.sub_diag by lia. reflexivity.
Qed.

Lemma framer_keeps_doubled_dot_witness :
  pushed (feed ["Subject: x" ++ JS.CRLF ++ "..hid";
                "den" ++ JS.CRLF ++ "end" ++ JS.CRLF ++ "."
                ++ String JS.CR EmptyString;
                String JS.LF EmptyString])
  = ["Subject: x"; "..hidden"; "end"]
  /\ nth_error
       (pushed (feed ["Subject: x" ++ JS.CRLF ++ "..hid";
                      "den" ++ JS.CRLF ++ "end" ++ JS.CRLF ++ "."
                      ++ String JS.CR EmptyString;
                      String JS.LF EmptyString])) 1
     = Some "..hidden".
Proof.
  apply (framer_keeps_doubled_dot ["Subject: x"] ["end"] "hidden");
    reflexivity.
Defined.

(** C2 fails as stated: the line sent as [..foo] comes out as [..foo],
    not as [.foo]. *)
Lemma framer_removes_no_dot :
  pushed (feed [Spec.wire ["..foo"]]) = ["..foo"]
  /\ pushed (feed [Spec.wire ["..foo"]]) <> [".foo"].
Proof. split; [reflexivity | discriminate]. Qed.

(** C3, where the code departs from the claim: fed the terminator alone,
    whole or character by character, the framer emits one item, the
    empty string. *)
Theorem framer_empty_body_one_blank :
  pushed (feed [terminator]) = [EmptyString]
  /\ pushed (feed ["."; String JS.CR EmptyString; String JS.LF EmptyString])
     = [EmptyString]
  /\ pushed (feed [terminator]) <> [].
Proof. repeat split. discriminate. Qed.

(** With a status line before it, the terminator closes a body of no
    line: the status line alone comes out. *)
Lemma framer_status_line_only (status_line : string) :
  Spec.piece JS.CRLF status_line = true ->
  JS.trim status_line = status_line ->
  pushed (feed [Spec.wire [status_line]]) = [status_line].
Proof.
  intros Hpiece Htrim.
  apply feed_wire; try reflexivity; try assumption; try discriminate.
  simpl. now rewrite Hpiece.
Qed.

End FramerProperties.

(* ================================================================= *)
(** ** Objects *)

Section Objects.

Local Open Scope list_scope.

Context {V : Type}.

Lemma get_app (k : string) (a b : JS.object V) :
  JS.get k (a ++ b)
  = match JS.get k a with
    | Some v => Some v
    | None => JS.get k b
    end.
Proof.
  induction a as [|[k' v'] a IH]; simpl; [reflexivity|].
  destruct (String.eqb k k'); [reflexivity | exact IH].
Qed.

Lemma get_absent (k : string) (o : JS.object V) :
  ~ In k (JS.keys o) -> JS.get k o = None.
Proof.
  induction o as [|[k' v'] o IH]; simpl; intros Hk; [reflexivity|].
  destruct (String.eqb_spec k k') as [->|_]; [|apply IH]; tauto.
Qed.

Lemma get_present (k : string) (o : JS.object V) :
  In k (JS.keys o) -> exists v, JS.get k o = Some v.
Proof.
  induction o as [|[k' v'] o IH]; simpl; intros Hk; [contradiction|].
  destruct (String.eqb_spec k k') as [->|Hne]; [now exists v'|].
  destruct Hk as [Hk|Hk]; [congruence | now apply IH].
Qed.

Lemma keys_app (a b : JS.object V) :
  JS.keys (a ++ b) = JS.keys a ++ JS.keys b.
Proof. apply map_app. Qed.

(** Assigning an ordinary key that the object lacks appends the
    property. *)
Lemma set_fresh (k : string) (v : V) (o : JS.object V) :
  ~ In k (JS.keys o) ->
  Spec.ordinary_key k ->
  JS.set k v o = o ++ [(k, v)].
Proof.
  intros Hk [Hidx Hproto]. unfold JS.set.
  apply String.eqb_neq in Hproto.
  now rewrite Hproto, (get_absent _ _ Hk), Hidx.
Qed.

Lemma NoDup_keys_step (k : string) (v : V) (acc : JS.object V)
    (ks : list string) :
  NoDup (JS.keys acc ++ k :: ks) ->
  ~ In k (JS.keys acc) /\ NoDup (JS.keys (acc ++ [(k, v)]) ++ ks).
Proof.
  intros Hnd. split.
  - apply NoDup_remove_2 in Hnd. intros Hin. apply Hnd, in_or_app. now left.
  - rewrite keys_app. simpl. now rewrite <- app_assoc.
Qed.

(** Copying the properties of [source] onto [target], the keys of both
    being distinct and those of [source] ordinary, appends them in
    order. *)
Lemma copy_properties (source : JS.object V) :
  forall target,
    NoDup (JS.keys target ++ JS.keys source) ->
    Forall Spec.ordinary_key (JS.keys source) ->
    fold_left (fun t kv => JS.set (fst kv) (snd kv) t) source target
    = target ++ source.
Proof.
  induction source as [|[k v] source IH]; intros target Hnd Hord; simpl.
  - now rewrite app_nil_r.
  - simpl in Hnd, Hord. inversion Hord as [|? ? Hk Hrest]; subst.
    destruct (NoDup_keys_step k v target _ Hnd) as [Hfresh Hnd'].
    rewrite set_fresh, IH by assumption.
    now rewrite <- app_assoc.
Qed.

(** Where no own property hides the method, [hasOwnProperty] tells
    whether the key is among the keys. *)
Lemma hasOwnProperty_own (o : JS.object V) (k : string) :
  JS.get "hasOwnProperty" o = None ->
  In k (JS.keys o) ->
  JS.hasOwnProperty o k = JS.Return true.
Proof.
  intros Hmethod Hk. unfold JS.hasOwnProperty. rewrite Hmethod.
  now destruct (get_present _ _ Hk) as [v ->].
Qed.

End Objects.

Section PlainFormat.

Variable format : JS.object bool.
Hypothesis Hplain : Spec.plain_format format.

Lemma plain_format_keys :
  NoDup ("number" :: JS.keys format)
  /\ Forall Spec.ordinary_key ("number" :: JS.keys format).
Proof.
  destruct Hplain as [Hnd Hord]. split.
  - inversion Hnd as [|? ? Hnumber Hrest]; subst.
    inversion Hrest as [|? ? Hmethod Hkeys]; subst.
    constructor; [|exact Hkeys].
    intros Hin. apply Hnumber. now right.
  - constructor; [|exact Hord]. split; [reflexivity | discriminate].
Qed.

Lemma plain_format_method :
  JS.get "hasOwnProperty" (("number", false) :: format) = None.
Proof.
  destruct Hplain as [Hnd _].
  inversion Hnd as [|? ? _ Hrest]; subst.
  inversion Hrest as [|? ? Hmethod _]; subst.
  apply (get_absent "hasOwnProperty" (("number", false) :: format)).
  simpl. intros [Hn|Hin]; [discriminate Hn | contradiction].
Qed.

Lemma xtend_number :
  JS.xtend [[("number", false)]; format] = ("number", false) :: format.
Proof.
  destruct plain_format_keys as [Hnd Hord].
  unfold JS.xtend. cbn [fold_left].
  change (JS.set (fst ("number", false)) (snd ("number", false)) [])
    with [("number", false)].
  rewrite copy_properties; [reflexivity | exact Hnd |].
  now inversion Hord.
Qed.

End PlainFormat.

(* ================================================================= *)
(** ** Overview rows *)

Section Overview.

Local Open Scope list_scope.

Import NNTP.

Lemma nth_error_tl {A} (l : list A) (i : nat) :
  nth_error (tl l) i = nth_error l (S i).
Proof. destruct l; [now destruct i | reflexivity]. Qed.

Lemma hd_error_nth {A} (l : list A) : hd_error l = nth_error l 0.
Proof. now destruct l. Qed.

Variable format : JS.object bool.
Hypothesis Hmethod : JS.get "hasOwnProperty" format = None.

(** What the field loop leaves in the message: the properties it had,
    and under each key visited the part at the key's position, taken
    according to the key's flag. *)
Lemma parse_fields_message (fields : JS.object bool) :
  forall parts msg m,
    incl (JS.keys fields) (JS.keys format) ->
    NoDup (JS.keys msg ++ JS.keys fields) ->
    Forall Spec.ordinary_key (JS.keys fields) ->
    parse_fields format fields parts msg = JS.Return m ->
    (forall k, In k (JS.keys msg) -> JS.get k m = JS.get k msg)
    /\ forall i field full,
        nth_error fields i = Some (field, full) ->
        exists v,
          field_value full (nth_error parts i) = JS.Return v
          /\ JS.get field m = Some v.
Proof.
  induction fields as [|[k b] fields IH];
    intros parts msg m Hincl Hnd Hord Hrun.
  - simpl in Hrun. injection Hrun as <-. split; [reflexivity|].
    intros [|i] ? ? Hi; discriminate Hi.
  - cbn [parse_fields] in Hrun.
    rewrite (hasOwnProperty_own format k Hmethod) in Hrun
      by (apply Hincl; now left).
    destruct (field_value b (hd_error parts)) as [v|ex] eqn:Hv;
      [|discriminate Hrun].
    simpl in Hnd, Hord. inversion Hord as [|? ? Hk Hrest]; subst.
    destruct (NoDup_keys_step k v msg _ Hnd) as [Hfresh Hnd'].
    rewrite set_fresh in Hrun by assumption.
    assert (Hincl' : incl (JS.keys fields) (JS.keys format)).
    { intros x Hx. apply Hincl. now right. }
    destruct (IH _ _ _ Hincl' Hnd' Hrest Hrun) as [Hkept Hfields].
    assert (Hold : forall k', In k' (JS.keys msg) ->
              JS.get k' (msg ++ [(k, v)]) = JS.get k' msg).
    { intros k' Hin. rewrite get_app.
      now destruct (get_present _ _ Hin) as [x ->]. }
    split.
    + intros k' Hin. rewrite Hkept, Hold; trivial.
      rewrite keys_app. apply in_or_app. now left.
    + intros [|i] field full Hi.
      * injection Hi as <- <-. exists v. rewrite <- hd_error_nth.
        split; [exact Hv|].
        rewrite Hkept by (rewrite keys_app; apply in_or_app; right; now left).
        rewrite get_app, (get_absent _ _ Hfresh). simpl.
        now rewrite String.eqb_refl.
      * destruct (Hfields i field full Hi) as [x [Hx Hget]].
        exists x. now rewrite <- nth_error_tl.
Qed.

(** The field loop returns as soon as every key marked full finds a
    part. *)
Lemma parse_fields_returns (fields : JS.object bool) :
  forall parts msg,
    incl (JS.keys fields) (JS.keys format) ->
    (forall i field, nth_error fields i = Some (field, true) ->
                     i < List.length parts) ->
    exists m, parse_fields format fields parts msg = JS.Return m.
Proof.
  induction fields as [|[k b] fields IH]; intros parts msg Hincl Hparts.
  - now exists msg.
  - cbn [parse_fields].
    rewrite (hasOwnProperty_own format k Hmethod) by (apply Hincl; now left).
    assert (Hv : exists v, field_value b (hd_error parts) = JS.Return v).
    { destruct b; [|now eexists].
      destruct parts as [|p parts]; [|now eexists].
      specialize (Hparts 0 k eq_refl). simpl in Hparts. lia. }
    destruct Hv as [v ->]. apply IH.
    + intros x Hx. apply Hincl. now right.
    + intros i field Hi. specialize (Hparts (S i) field Hi).
      destruct parts; simpl in *; lia.
Qed.

Lemma split_TABS_cons (line : string) :
  exists t ts, JS.split JS.TABS line = t :: ts.
Proof.
  destruct (JS.split JS.TABS line) as [|t ts] eqn:Hs; [|now eauto].
  now apply split_from_nonempty in Hs.
Qed.

Lemma parseOverview_rows (overview : list string) :
  forall messages,
    parseOverview overview format = JS.Return messages ->
    Forall2 (fun line msg => parse_line format line = JS.Return msg)
      overview messages.
Proof.
  induction overview as [|line overview IH]; intros messages Hrun.
  - injection Hrun as <-. constructor.
  - cbn [parseOverview] in Hrun.
    destruct (parse_line format line) as [msg|] eqn:Hline;
      [|discriminate Hrun].
    destruct (parseOverview overview format) as [rest|];
      [|discriminate Hrun].
    injection Hrun as <-. constructor; [exact Hline | now apply IH].
Qed.

Lemma parseOverview_returns (overview : list string) :
  (forall line, In line overview ->
                exists msg, parse_line format line = JS.Return msg) ->
  exists messages, parseOverview overview format = JS.Return messages.
Proof.
  induction overview as [|line overview IH]; intros Hlines.
  - now exists [].
  - cbn [parseOverview].
    destruct (Hlines line (or_introl eq_refl)) as [msg ->].
    destruct IH as [rest ->]; [|now eexists].
    intros l Hl. apply Hlines. now right.
Qed.

End Overview.

Lemma parse_line_row (format : JS.object bool) (line : string)
    (msg : NNTP.message) :
  Spec.plain_format format ->
  NNTP.parse_line (("number", false) :: format) line = JS.Return msg ->
  Spec.row_of format line msg.
Proof.
  intros Hplain Hrun. unfold NNTP.parse_line in Hrun.
  destruct (plain_format_keys format Hplain) as [Hnd Hord].
  destruct (split_TABS_cons line) as [t [ts Hs]]. rewrite Hs in Hrun.
  apply parse_fields_message in Hrun as [_ Hfields];
    [|now apply plain_format_method|apply incl_refl|exact Hnd|exact Hord].
  exists t, ts. split; [exact Hs|]. split.
  - destruct (Hfields 0 "number" false eq_refl) as [v [Hv Hget]].
    simpl in Hv. injection Hv as <-. exact Hget.
  - intros i field full Hi. exact (Hfields (S i) field full Hi).
Qed.

(* ================================================================= *)
(** ** Properties of the session controller *)

Section SessionProperties.

Import NNTP.

(** *** Overview parsing *)

(** C4, as the code has it: with the format [subject] (short) then
    [from] (full), [xover] and [xzver] read the line
    [42 TAB Hello TAB From: a@b] as [number] "42", [subject] "Hello" and
    [from] "a@b": the first part goes to the [number] key put before the
    caller's keys, and the caller's keys take the parts after it. *)
Theorem xover_example (status : Z) (text : string) :
  xover [("subject", false); ("from", true)]
    (Arrived (Response.mk status text
                [Spec.example_line]))
  = JS.Return
      (Ok [[("number", Some "42"); ("subject", Some "Hello");
            ("from", Some "a@b")]])
  /\ xzver [("subject", false); ("from", true)]
       (Arrived (Response.mk status text
                   [Spec.example_line]))
     = JS.Return
         (Ok [[("number", Some "42"); ("subject", Some "Hello");
               ("from", Some "a@b")]]).
Proof. split; reflexivity. Qed.

(** C4 fails as stated: neither [xover] nor [parseOverview] on the bare
    format gives [subject] "42" together with [from] "a@b"; on the bare
    format [from] is "Hello". *)
Lemma overview_example_not_as_claimed :
  xover [("subject", false); ("from", true)]
    (Arrived (Response.mk 224 "Overview information follows"
                [Spec.example_line]))
  <> JS.Return (Ok [[("subject", Some "42"); ("from", Some "a@b")]])
  /\ parseOverview [Spec.example_line]
       [("subject", false); ("from", true)]
     = JS.Return [[("subject", Some "42"); ("from", Some "Hello")]].
Proof. split; [discriminate | reflexivity]. Qed.

(** C9, as the code has it: for a format that has no [number] key of its
    own and no array-index key, [xover] and [xzver] parse against
    [number] (short) followed by the caller's keys.  Whenever they
    deliver rows, every row holds the first part of its line under
    [number] as it is, and the parts after it under the caller's keys in
    order; and they do deliver rows when every line has a part for each
    key marked full. *)
Theorem xover_number_then_format (format : JS.object bool)
    (response : Response.t) :
  Spec.plain_format format ->
  JS.xtend [[("number", false)]; format] = ("number", false) :: format
  /\ xzver format (Arrived response) = xover format (Arrived response)
  /\ (forall messages,
        xover format (Arrived response) = JS.Return (Ok messages) ->
        Forall2 (Spec.row_of format) response.(Response.lines) messages)
  /\ ((forall line i field,
          In line response.(Response.lines) ->
          nth_error format i = Some (field, true) ->
          S i < List.length (JS.split JS.TABS line)) ->
      exists messages,
        xover format (Arrived response) = JS.Return (Ok messages)).
Proof.
  intros Hplain. pose proof (xtend_number format Hplain) as Hx.
  split; [exact Hx|]. split; [reflexivity|].
  unfold xover. rewrite Hx. split.
  - intros messages Hrun.
    destruct (parseOverview _ _) as [ms|] eqn:Hparse; [|discriminate Hrun].
    injection Hrun as <-.
    apply parseOverview_rows in Hparse.
    eapply Forall2_impl; [|exact Hparse].
    intros line msg Hline. now apply parse_line_row.
  - intros Hparts.
    destruct (parseOverview_returns (("number", false) :: format)
                response.(Response.lines)) as [ms ->]; [|now eexists].
    intros line Hin. apply parse_fields_returns.
    + now apply plain_format_method.
    + apply incl_refl.
    + intros [|i] field Hi; [discriminate Hi|].
      exact (Hparts line i field Hin Hi).
Qed.

Lemma xover_number_then_format_witness :
  Forall2 (Spec.row_of [("subject", false); ("from", true)])
    [Spec.example_line]
    [[("number", Some "42"); ("subject", Some "Hello");
      ("from", Some "a@b")]].
Proof.
  assert (Hplain : Spec.plain_format [("subject", false); ("from", true)]).
  { split.
    - repeat constructor; simpl; intuition discriminate.
    - repeat constructor; discriminate. }
  apply (proj1 (proj2 (proj2
           (xover_number_then_format
              [("subject", false); ("from", true)]
              (Response.mk 224 "Overview information follows"
                 [Spec.example_line])
              Hplain)))).
  reflexivity.
Defined.

(** C9 fails as stated: a format with a [number] key of its own marked
    full has the first part read as a full field, not as it is; and an
    array-index key of the format comes before [number] and takes the
    first part. *)
Lemma xover_number_overridden :
  xover [("number", true)]
    (Arrived (Response.mk 224 "Overview information follows" ["No: 42"]))
  = JS.Return (Ok [[("number", Some "42")]])
  /\ xover [("0", false)]
       (Arrived (Response.mk 224 "Overview information follows"
                   ["42" ++ JS.TABS ++ "Hello"]))
     = JS.Return (Ok [[("0", Some "42"); ("number", Some "Hello")]]).
Proof. split; reflexivity. Qed.

(** A format with a [hasOwnProperty] key of its own makes the field loop
    throw, and a [__proto__] key of the format is lost on the way. *)
Lemma xover_special_keys :
  xover [("hasOwnProperty", false)]
    (Arrived (Response.mk 224 "Overview information follows" ["42"]))
  = JS.Throw JS.TypeError
  /\ xover [("__proto__", false)]
       (Arrived (Response.mk 224 "Overview information follows"
                   ["42" ++ JS.TABS ++ "Hello"]))
     = JS.Return (Ok [[("number", Some "42")]]).
Proof. split; reflexivity. Qed.

(** *** [head] and [stat] *)

(** [head] and [stat] hand every response that arrives to the callback as
    the result, whatever its status; an error reaches the callback only
    when the awaited response itself failed, and it is that error. *)
Lemma head_stat_deliver_response :
  (forall response,
      head (Arrived response) = Ok response
      /\ stat (Arrived response) = Ok response)
  /\ (forall e, head (Failed e) = Err e /\ stat (Failed e) = Err e).
Proof. split; intros; split; reflexivity. Qed.

(** C5, where the code departs from the claim: a 430 response to [head]
    or to [stat] is delivered as the result, not as the no-such-article
    error that [article] gives for it; and a 500 response is delivered as
    the result, not as the unexpected-response error that [article] gives
    for it. *)
Theorem head_stat_430_delivered :
  head (Arrived (Response.mk 430 "No such article" []))
  = Ok (Response.mk 430 "No such article" [])
  /\ stat (Arrived (Response.mk 430 "No such article" []))
     = Ok (Response.mk 430 "No such article" [])
  /\ article (Arrived (Response.mk 430 "No such article" []))
     = Err NoSuchArticle
  /\ head (Arrived (Response.mk 500 "What?" []))
     = Ok (Response.mk 500 "What?" [])
  /\ stat (Arrived (Response.mk 500 "What?" []))
     = Ok (Response.mk 500 "What?" [])
  /\ article (Arrived (Response.mk 500 "What?" []))
     = Err (Unexpected (Response.mk 500 "What?" [])).
Proof. repeat split. Qed.

(** *** [parseInt] as [group] uses it *)

(** From 2^53 on, the nearest double is a multiple of the power of two
    that leaves 53 bits, its significand is within 53 bits or 2^53
    itself, it is off by half that power at most, and on a tie the
    significand is even. *)
Lemma nearest_double_rounds (m : Z) :
  (JS.two53 <= m)%Z ->
  exists q,
    JS.nearest_double m = (q * 2 ^ (Z.log2 m - 52))%Z
    /\ (2 ^ 52 <= q <= 2 ^ 53)%Z
    /\ (2 * Z.abs (JS.nearest_double m - m) <= 2 ^ (Z.log2 m - 52))%Z
    /\ ((2 * Z.abs (JS.nearest_double m - m) = 2 ^ (Z.log2 m - 52))%Z ->
        Z.even q = true).
Proof.
  intros Hm. unfold JS.two53 in Hm. unfold JS.nearest_double, JS.two53.
  destruct (Z.ltb_spec m 9007199254740992) as [Hlt|_]; [lia|].
  assert (Hpos : (0 < m)%Z) by lia.
  destruct (Z.log2_spec m Hpos) as [Hlo Hhi].
  assert (Hlog : (53 <= Z.log2 m)%Z).
  { apply Z.log2_le_pow2; [lia|]. change (2 ^ 53)%Z with 9007199254740992%Z.
    lia. }
  set (e := (Z.log2 m - 52)%Z) in *.
  assert (He : (1 <= e)%Z) by (subst e; lia).
  rewrite Z.shiftr_div_pow2 by lia.
  rewrite !Z.shiftl_mul_pow2 by lia.
  set (P := (2 ^ e)%Z).
  assert (HP : (P = 2 * 2 ^ (e - 1))%Z).
  { subst P. replace e with (Z.succ (e - 1)) at 1 by lia.
    apply Z.pow_succ_r. lia. }
  assert (Hhalf : (0 < 2 ^ (e - 1))%Z) by (apply Z.pow_pos_nonneg; lia).
  assert (Hq : (2 ^ 52 <= m / P < 2 ^ 53)%Z).
  { assert (H1 : (2 ^ Z.log2 m = 2 ^ 52 * P)%Z).
    { subst P. rewrite <- Z.pow_add_r by lia. f_equal. subst e. lia. }
    assert (H2 : (2 ^ Z.succ (Z.log2 m) = 2 ^ 53 * P)%Z).
    { subst P. rewrite <- Z.pow_add_r by lia. f_equal. subst e. lia. }
    split.
    - apply Z.div_le_lower_bound; lia.
    - apply Z.div_lt_upper_bound; lia. }
  pose proof (Z.div_mod m P ltac:(lia)) as Hdm.
  pose proof (Z.mod_pos_bound m P ltac:(lia)) as Hr.
  set (q := (m / P)%Z) in *. set (r := (m mod P)%Z) in *.
  replace (m - q * P)%Z with r by lia.
  rewrite Z.mul_1_l.
  destruct (Z.ltb_spec r (2 ^ (e - 1))) as [Hlow|Hge].
  - exists q. repeat split; try lia.
  - destruct (Z.ltb_spec (2 ^ (e - 1)) r) as [Hup|Hle].
    + exists (q + 1)%Z. repeat split; try lia.
    + assert (Htie : r = (2 ^ (e - 1))%Z) by lia.
      destruct (Z.even q) eqn:Hev.
      * exists q. repeat split; try lia. now intros _.
      * exists (q + 1)%Z. repeat split; try lia. intros _.
        rewrite Z.even_add, Hev. reflexivity.
Qed.

(** Below 2^53 [parseInt] gives the integer that the digits write; the
    first integer above 2^53 is rounded down to it, as the tie goes to the
    even significand; a negative zero keeps its sign. *)
Lemma parseInt_examples :
  JS.parseInt "9007199254740991" = JS.Num 9007199254740991
  /\ JS.parseInt "9007199254740993" = JS.Num 9007199254740992
  /\ JS.parseInt "9007199254740995" = JS.Num 9007199254740996
  /\ JS.parseInt " -42abc" = JS.Num (-42)
  /\ JS.parseInt "-0" = JS.NegZero
  /\ JS.parseInt "abc" = JS.NaN.
Proof. repeat split. Qed.

(** *** [group] *)

(** C6, as the code has it: on the group-selected status the message is
    split at every single space; the first three parts are read by
    [parseInt] as count, first and last, the fourth is the name, parts
    after the fourth are ignored.  A message of fewer parts still yields
    the structured result: the name is then [undefined], and a number
    whose part is missing is [NaN]. *)
Theorem group_reads_parts (response : Response.t) (parts : list string) :
  response.(Response.status) = Response.GROUP_SELECTED ->
  parts <> [] ->
  forallb (Spec.piece " ") parts = true ->
  response.(Response.message) = JS.join " " parts ->
  group (Arrived response)
  = Ok (mkGroup (nth_error parts 3)
          (JS.parseInt (JS.ToString (nth_error parts 0)))
          (JS.parseInt (JS.ToString (nth_error parts 1)))
          (JS.parseInt (JS.ToString (nth_error parts 2))))
  /\ (List.length parts < 4 -> nth_error parts 3 = None)
  /\ (List.length parts < 3 ->
      JS.parseInt (JS.ToString (nth_error parts 2)) = JS.NaN).
Proof.
  intros Hstatus Hne Hpieces Hmessage. split.
  - unfold group. rewrite Hstatus, Hmessage. cbn [Z.eqb negb].
    change (Response.NO_SUCH_GROUP =? Response.GROUP_SELECTED)%Z with false.
    change (Response.GROUP_SELECTED =? Response.GROUP_SELECTED)%Z with true.
    cbn [negb]. now rewrite (split_join " "%char EmptyString parts Hne Hpieces).
  - split; intros Hlen.
    + apply nth_error_None. lia.
    + replace (nth_error parts 2) with (@None string);
        [reflexivity | symmetry; apply nth_error_None; lia].
Qed.

Lemma group_reads_parts_witness :
  group (Arrived (Response.mk 211 "3 100 102 misc.test posting ok" []))
  = Ok (mkGroup (Some "misc.test") (JS.Num 3) (JS.Num 100) (JS.Num 102)).
Proof.
  exact (proj1 (group_reads_parts
                  (Response.mk 211 "3 100 102 misc.test posting ok" [])
                  ["3"; "100"; "102"; "misc.test"; "posting"; "ok"]
                  eq_refl ltac:(discriminate) eq_refl eq_refl)).
Defined.

(** The largest double is reached from below; half way from it to 2^1024
    and beyond, the result is an infinity. *)
Lemma to_number_overflow :
  JS.to_number false (2 ^ 1024 - 2 ^ 970 - 1) = JS.Num (2 ^ 1024 - 2 ^ 971)
  /\ JS.to_number false (2 ^ 1024 - 2 ^ 970) = JS.Infinity
  /\ JS.to_number true (2 ^ 1024) = JS.NegInfinity.
Proof. repeat split; vm_compute; reflexivity. Qed.

(** A count beyond 2^53 is delivered as the double nearest to it. *)
Lemma group_large_count_rounded :
  group (Arrived (Response.mk 211 "9007199254740993 1 2 g" []))
  = Ok (mkGroup (Some "g") (JS.Num 9007199254740992) (JS.Num 1) (JS.Num 2)).
Proof. reflexivity. Qed.

(** C6 fails as stated: the message [3 100] of two parts yields a
    structured result, with no name and no last number, not an error. *)
Lemma group_short_message_no_error :
  group (Arrived (Response.mk 211 "3 100" []))
  = Ok (mkGroup None (JS.Num 3) (JS.Num 100) JS.NaN)
  /\ forall e, group (Arrived (Response.mk 211 "3 100" [])) <> Err e.
Proof. split; [reflexivity | discriminate]. Qed.

(** *** [article] *)



Lemma article_loop_headers (hs : list string) :
  forall bs hs0,
    forallb (fun h => negb (blank h)) hs = true ->
    fold_left article_step hs (mkLoop false bs hs0)
    = mkLoop false bs (hs0 ++ hs)%list.
Proof.
  induction hs as [|h hs IH]; intros bs hs0 Hhs; simpl.
  - now rewrite app_nil_r.
  - simpl in Hhs. apply andb_true_iff in Hhs as [Hh Hrest].
    apply negb_true_iff in Hh.
    unfold article_step at 2. rewrite Hh. cbn [andb inBody].
    cbn [loop_body loop_headers].
    rewrite IH by exact Hrest. now rewrite <- app_assoc.
Qed.

Lemma article_loop_body (ls : list string) :
  forall bs hs,
    fold_left article_step ls (mkLoop true bs hs)
    = mkLoop true (bs ++ ls)%list hs.
Proof.
  induction ls as [|l ls IH]; intros bs hs; simpl.
  - now rewrite app_nil_r.
  - unfold article_step at 2. cbn [inBody negb].
    rewrite andb_false_r. cbn [loop_body loop_headers].
    rewrite IH. now rewrite <- app_assoc.
Qed.

Lemma article_loop (hs : list string) (separator : string)
    (bs : list string) :
  forallb (fun h => negb (blank h)) hs = true ->
  blank separator = true ->
  fold_left article_step (hs ++ separator :: bs)%list (mkLoop false [] [])
  = mkLoop true bs hs.
Proof.
  intros Hhs Hsep.
  rewrite fold_left_app, article_loop_headers by exact Hhs.
  cbn [fold_left app].
  assert (Hstep : article_step (mkLoop false [] hs) separator
                  = mkLoop true [] hs).
  { unfold article_step. now rewrite Hsep. }
  rewrite Hstep. apply article_loop_body.
Qed.

(** C8: a retrieved article whose lines are header lines none of which
    is blank, then a blank line, then any lines, is delivered with
    exactly the lines before the blank line as headers and exactly the
    lines after it as body, later blank lines included; the blank line
    between them is in neither. *)
Theorem article_splits_at_first_blank (response : Response.t)
    (hs : list string) (separator : string) (bs : list string) :
  response.(Response.status) = Response.ARTICLE_RETRIEVED ->
  response.(Response.lines) = (hs ++ separator :: bs)%list ->
  forallb (fun h => negb (blank h)) hs = true ->
  blank separator = true ->
  article (Arrived response) = Ok (mkArticle hs bs).
Proof.
  intros Hstatus Hlines Hhs Hsep.
  unfold article. rewrite Hstatus, Hlines.
  change (Response.NO_SUCH_ARTICLE =? Response.ARTICLE_RETRIEVED)%Z
    with false.
  change (Response.ARTICLE_RETRIEVED =? Response.ARTICLE_RETRIEVED)%Z
    with true.
  cbn [negb]. now rewrite (article_loop hs separator bs Hhs Hsep).
Qed.

Lemma article_splits_at_first_blank_witness :
  article
    (Arrived (Response.mk 221 "0 <id@example> article"
                ["From: a@b"; "Subject: hi"; EmptyString;
                 "first"; EmptyString; "last"]))
  = Ok (mkArticle ["From: a@b"; "Subject: hi"] ["first"; EmptyString; "last"]).
Proof.
  apply (article_splits_at_first_blank
           (Response.mk 221 "0 <id@example> article"
              ["From: a@b"; "Subject: hi"; EmptyString;
               "first"; EmptyString; "last"])
           ["From: a@b"; "Subject: hi"] EmptyString
           ["first"; EmptyString; "last"]);
    reflexivity.
Defined.

(** *** [connect] *)

(** C10: whether the greeting arrived or the awaited response failed,
    [connect] invokes the callback, with the error and response it got,
    on a client whose [isConnected] is already [true]; a callback that
    reads the flag reads [true] in both cases. *)
Theorem connect_sets_isConnected_first (R : Type)
    (callback : option error -> option Response.t -> client -> R)
    (self : client) :
  (forall e,
      connect callback (Failed e) self
      = callback (Some e) None (set_isConnected true self))
  /\ (forall response,
        connect callback (Arrived response) self
        = callback None (Some response) (set_isConnected true self))
  /\ isConnected (set_isConnected true self) = Some true
  /\ forall o, connect (fun _ _ c => isConnected c) o self = Some true.
Proof. repeat split. Qed.

End SessionProperties.

(* ================================================================= *)
(** ** More on [split], [join] and [trim] *)

Section JoinSplit.

Lemma join_empty_cons (c : string) (rest : list string) :
  JS.join EmptyString (c :: rest) = c ++ JS.join EmptyString rest.
Proof.
  destruct rest; simpl; [now rewrite append_nil_r | reflexivity].
Qed.

Lemma join_cons (sep p : string) (parts : list string) :
  parts <> [] ->
  JS.join sep (p :: parts) = p ++ sep ++ JS.join sep parts.
Proof. destruct parts; [now intros [] | reflexivity]. Qed.

Lemma starts_with_decompose (p s : string) :
  JS.starts_with p s = true -> exists rest, s = p ++ rest.
Proof.
  revert s. induction p as [|a p IH]; intros s H; [now exists s|].
  destruct s as [|b s]; simpl in H; [discriminate|].
  apply andb_true_iff in H as [Hab Hp]. apply Ascii.eqb_eq in Hab as ->.
  destruct (IH _ Hp) as [rest ->]. now exists rest.
Qed.

Variable sep0 : ascii.
Variable sep' : string.
Let sep : string := String sep0 sep'.

(** Joining the pieces of a split with the separator gives the text
    back. *)
Lemma join_split_from (n : nat) :
  forall s cur,
    String.length s <= n ->
    JS.join sep (JS.split_from sep s 0 cur) = cur ++ s.
Proof.
  induction n as [|n IH]; intros s cur Hlen.
  - destruct s; [|simpl in Hlen; lia]. simpl. now rewrite append_nil_r.
  - destruct s as [|c s]; [simpl; now rewrite append_nil_r|].
    cbn [JS.split_from].
    destruct (JS.starts_with sep (String c s)) eqn:Hs.
    + destruct (starts_with_decompose _ _ Hs) as [rest Hrest].
      unfold sep in Hrest. simpl in Hrest. injection Hrest as -> ->.
      change (String.length sep - 1) with (String.length sep' - 0).
      rewrite Nat.sub_0_r, split_from_skip.
      rewrite join_cons by apply split_from_nonempty.
      rewrite IH.
      * reflexivity.
      * simpl in Hlen. rewrite length_append in Hlen. lia.
    + rewrite IH by (simpl in Hlen; lia).
      now rewrite append_assoc.
Qed.

Lemma join_split (s : string) : JS.join sep (JS.split sep s) = s.
Proof.
  unfold JS.split, sep.
  exact (join_split_from (String.length s) s EmptyString (le_n _)).
Qed.

End JoinSplit.

Section SplitChar.

Variable c : ascii.

(** No piece of a split on a one-character separator holds the
    character. *)
Lemma split_from_char_free (s : string) :
  forall cur,
    Says.has c cur = false ->
    Forall (fun p => Says.has c p = false)
      (JS.split_from (String c EmptyString) s 0 cur).
Proof.
  induction s as [|d s IH]; intros cur Hcur; cbn [JS.split_from].
  - now constructor.
  - cbn [JS.starts_with]. rewrite andb_true_r.
    destruct (Ascii.eqb c d) eqn:Hcd.
    + constructor; [exact Hcur|]. simpl String.length. simpl Nat.sub.
      now apply IH.
    + apply IH. clear IH. induction cur as [|x cur IHc]; simpl in *.
      * rewrite Ascii.eqb_sym, Hcd. reflexivity.
      * apply orb_false_iff in Hcur as [Hx Hrest].
        now rewrite Hx, (IHc Hrest).
Qed.

Lemma split_char_free (s : string) :
  Forall (fun p => Says.has c p = false) (JS.split (String c EmptyString) s).
Proof. now apply split_from_char_free. Qed.

End SplitChar.

Section TrimMore.

Lemma white_append (a b : string) :
  Says.white (a ++ b) = Says.white a && Says.white b.
Proof.
  unfold Says.white. induction a as [|c a IH]; simpl; [reflexivity|].
  now rewrite IH, andb_assoc.
Qed.

Lemma trim_prepend_white (w a : string) :
  Says.white w = true ->
  JS.trim (w ++ a) = JS.trim a.
Proof.
  unfold JS.trim, Says.white.
  induction w as [|c w IH]; intros Hw; [reflexivity|].
  simpl in Hw. apply andb_true_iff in Hw as [Hc Hrest].
  specialize (IH Hrest).
  change (String c w ++ a) with (String c (w ++ a)).
  cbn [JS.trimEnd].
  destruct (JS.trimEnd (w ++ a)) as [|x t] eqn:Ht.
  - rewrite Hc. simpl in IH. now rewrite <- IH.
  - cbn [JS.trimStart]. now rewrite Hc.
Qed.

Lemma trim_outer_white (w1 a w2 : string) :
  Says.white w1 = true ->
  Says.white w2 = true ->
  JS.trim (w1 ++ a ++ w2) = JS.trim a.
Proof.
  intros H1 H2. rewrite trim_prepend_white by exact H1.
  unfold JS.trim. now rewrite trimEnd_append_white.
Qed.

End TrimMore.

(* ================================================================= *)
(** ** More on the multi-line framer *)

Section FramerMore.

Import MultilineStream.

Lemma feed_from_silent (chunks : list string) :
  forall st,
    ended st = false ->
    Says.never_ends (buffer st) chunks = true ->
    feed_from st chunks
    = mk (buffer st ++ JS.join EmptyString chunks) (pushed st) false.
Proof.
  induction chunks as [|c rest IH]; intros st Hend Hnever.
  - simpl. rewrite append_nil_r. destruct st; simpl in *. now subst.
  - simpl in Hnever. apply andb_true_iff in Hnever as [Hc Hrest].
    apply negb_true_iff in Hc.
    change (feed_from st (c :: rest)) with (feed_from (write st c) rest).
    assert (Hw : write st c = mk (buffer st ++ c) (pushed st) false).
    { unfold write, _transform. rewrite Hend, Hc. reflexivity. }
    rewrite Hw, IH by (reflexivity || exact Hrest).
    cbn [buffer pushed]. now rewrite join_empty_cons, append_assoc.
Qed.

(** X1: as long as no chunk leaves the buffer ending in ['.\r\n'], the
    framer pushes nothing and does not end; it holds all the text received
    in its buffer. *)
Theorem framer_silent_until_terminator (chunks : list string) :
  Says.never_ends EmptyString chunks = true ->
  feed chunks = mk (JS.join EmptyString chunks) [] false.
Proof.
  intros Hnever. unfold feed.
  now rewrite feed_from_silent by (reflexivity || exact Hnever).
Qed.

Lemma framer_silent_until_terminator_witness :
  feed ["224 overview" ++ JS.CRLF ++ "1"; String JS.TAB "a." ++ JS.CRLF ++ "."]
  = mk ("224 overview" ++ JS.CRLF ++ "1" ++ String JS.TAB "a." ++ JS.CRLF
        ++ ".") [] false.
Proof.
  apply (framer_silent_until_terminator
           ["224 overview" ++ JS.CRLF ++ "1";
            String JS.TAB "a." ++ JS.CRLF ++ "."]).
  reflexivity.
Defined.

(** X2: chunks none of which but the last leaves the buffer ending in
    ['.\r\n'] put the framer in the state their concatenation, delivered
    as one chunk, puts it in. *)
Theorem framer_chunking_independent (chunks : list string) :
  Spec.no_early_end EmptyString chunks = true ->
  feed chunks = feed [JS.join EmptyString chunks].
Proof.
  intros Hearly. destruct chunks as [|c rest]; [reflexivity|].
  unfold feed. rewrite feed_from_join by (discriminate || auto).
  reflexivity.
Qed.

Lemma framer_chunking_independent_witness :
  feed ["224 x" ++ String JS.CR EmptyString;
        String JS.LF "a" ++ JS.CRLF ++ "."; JS.CRLF]
  = feed ["224 x" ++ JS.CRLF ++ "a" ++ JS.CRLF ++ "." ++ JS.CRLF].
Proof.
  apply (framer_chunking_independent
           ["224 x" ++ String JS.CR EmptyString;
            String JS.LF "a" ++ JS.CRLF ++ "."; JS.CRLF]).
  reflexivity.
Defined.

(** X3: whatever text comes before the terminator, the lines pushed,
    joined again with CR LF, are that text trimmed: nothing but white
    space at its two ends is lost, and nothing is added. *)
Theorem framer_lines_rejoin (a : string) (chunks : list string) :
  JS.join EmptyString chunks = a ++ terminator ->
  Spec.no_early_end EmptyString chunks = true ->
  JS.join JS.CRLF (pushed (feed chunks)) = JS.trim a
  /\ ended (feed chunks) = true.
Proof.
  intros Hchunks Hearly.
  destruct chunks as [|c rest].
  - apply (f_equal String.length) in Hchunks.
    rewrite length_append in Hchunks. simpl in Hchunks. lia.
  - unfold feed. rewrite feed_from_join by (discriminate || auto).
    rewrite Hchunks.
    change (_transform (a ++ terminator) create) with (feed [a ++ terminator]).
    rewrite feed_terminated. cbn [pushed ended].
    split; [|reflexivity].
    apply (join_split JS.CR (String JS.LF EmptyString)).
Qed.

Lemma framer_lines_rejoin_witness :
  JS.join JS.CRLF
    (pushed (feed [" a.." ++ JS.CRLF ++ JS.CRLF;
                   "b " ++ JS.CRLF ++ terminator]))
  = "a.." ++ JS.CRLF ++ JS.CRLF ++ "b"
  /\ ended (feed [" a.." ++ JS.CRLF ++ JS.CRLF; "b " ++ JS.CRLF ++ terminator])
     = true.
Proof.
  apply (framer_lines_rejoin (" a.." ++ JS.CRLF ++ JS.CRLF ++ "b " ++ JS.CRLF));
    reflexivity.
Defined.

Lemma lines_of_nonempty (b : string) : lines_of b <> [].
Proof. unfold lines_of, JS.split, JS.CRLF. apply split_from_nonempty. Qed.

(** X5: in every state the framer reaches, lines have been pushed exactly
    when it has ended: before the end nothing has been pushed, and at the
    end at least one item is pushed, be it the empty string. *)
Theorem framer_pushed_iff_ended (chunks : list string) :
  (ended (feed chunks) = false /\ pushed (feed chunks) = [])
  \/ (ended (feed chunks) = true /\ pushed (feed chunks) <> []).
Proof.
  unfold feed, feed_from.
  assert (Hinv : forall st,
             (ended st = false /\ pushed st = [])
             \/ (ended st = true /\ pushed st <> []) ->
             (ended (fold_left write chunks st) = false
              /\ pushed (fold_left write chunks st) = [])
             \/ (ended (fold_left write chunks st) = true
                 /\ pushed (fold_left write chunks st) <> [])).
  { induction chunks as [|c rest IH]; intros st Hst; [exact Hst|].
    cbn [fold_left]. apply IH.
    destruct Hst as [[Hend Hpushed]|[Hend Hpushed]].
    - unfold write, _transform. rewrite Hend.
      destruct (at_terminator (buffer st ++ c)); cbn [ended pushed].
      + right. split; [reflexivity|]. rewrite Hpushed. apply lines_of_nonempty.
      + left. now split.
    - right. unfold write. rewrite Hend. now split. }
  apply Hinv. left. now split.
Qed.

(** X6: white space, line ends included, before the first and after the
    last other character of the text is dropped: blank lines at the start
    and at the end of what was received are not pushed. *)
Theorem framer_drops_outer_white_space (w1 a w2 : string) :
  Says.white w1 = true ->
  Says.white w2 = true ->
  pushed (feed [w1 ++ a ++ w2 ++ terminator]) = pushed (feed [a ++ terminator]).
Proof.
  intros H1 H2.
  replace (w1 ++ a ++ w2 ++ terminator) with ((w1 ++ a ++ w2) ++ terminator)
    by now rewrite !append_assoc.
  rewrite !feed_terminated. cbn [pushed].
  now rewrite trim_outer_white.
Qed.

Lemma framer_drops_outer_white_space_witness :
  pushed (feed [(JS.CRLF ++ "  ") ++ ("a" ++ JS.CRLF ++ "b")
                ++ (JS.CRLF ++ JS.CRLF) ++ terminator])
  = pushed (feed [("a" ++ JS.CRLF ++ "b") ++ terminator]).
Proof.
  apply (framer_drops_outer_white_space (JS.CRLF ++ "  ")
           ("a" ++ JS.CRLF ++ "b") (JS.CRLF ++ JS.CRLF));
    reflexivity.
Defined.

End FramerMore.

(* ================================================================= *)
(** ** More on [article] and [group] *)

Section ArticleGroupMore.

Import NNTP.

Lemma article_loop_any (lines : list string) :
  forall hs0,
    exists hs,
      loop_headers (fold_left article_step lines (mkLoop false [] hs0))
      = (hs0 ++ hs)%list
      /\ forallb (fun h => negb (blank h)) hs = true
      /\ ((lines = hs
           /\ loop_body (fold_left article_step lines (mkLoop false [] hs0))
              = [])
          \/ exists separator,
              blank separator = true
              /\ lines
                 = (hs ++ separator
                       :: loop_body (fold_left article_step lines
                                       (mkLoop false [] hs0)))%list).
Proof.
  induction lines as [|l lines IH]; intros hs0.
  - exists []. cbn. rewrite app_nil_r. repeat split. now left.
  - cbn [fold_left]. destruct (blank l) eqn:Hl.
    + assert (Hstep : article_step (mkLoop false [] hs0) l
                      = mkLoop true [] hs0).
      { unfold article_step. now rewrite Hl. }
      rewrite Hstep, article_loop_body. cbn [loop_headers loop_body app].
      exists []. rewrite app_nil_r. repeat split.
      right. now exists l.
    + assert (Hstep : article_step (mkLoop false [] hs0) l
                      = mkLoop false [] (hs0 ++ [l])).
      { unfold article_step. now rewrite Hl. }
      rewrite Hstep.
      destruct (IH (hs0 ++ [l])%list) as [hs [Hh [Hnb Hcases]]].
      exists (l :: hs). rewrite Hh, <- app_assoc. split; [reflexivity|].
      split; [cbn; now rewrite Hl|].
      destruct Hcases as [[-> Hb]|[separator [Hsep Hlines]]].
      * now left.
      * right. exists separator. split; [exact Hsep|].
        cbn [app]. now rewrite <- Hlines.
Qed.

(** X7: a retrieved article is cut without loss, whatever its lines: no
    header delivered is blank, and the lines received are the headers
    alone (then the body is empty), or the headers, one blank line and
    the body. *)
Theorem article_partition (response : Response.t) :
  response.(Response.status) = Response.ARTICLE_RETRIEVED ->
  exists a,
    article (Arrived response) = Ok a
    /\ forallb (fun h => negb (blank h)) a.(headers) = true
    /\ ((response.(Response.lines) = a.(headers) /\ a.(body) = [])
        \/ exists separator,
            blank separator = true
            /\ response.(Response.lines)
               = (a.(headers) ++ separator :: a.(body))%list).
Proof.
  intros Hstatus. unfold article. rewrite Hstatus.
  change (Response.NO_SUCH_ARTICLE =? Response.ARTICLE_RETRIEVED)%Z
    with false.
  change (Response.ARTICLE_RETRIEVED =? Response.ARTICLE_RETRIEVED)%Z
    with true.
  cbn [negb]. eexists. split; [reflexivity|]. cbn [headers body].
  destruct (article_loop_any response.(Response.lines) [])
    as [hs [Hh [Hnb Hcases]]].
  cbn [app] in Hh. rewrite Hh. split; [exact Hnb|exact Hcases].
Qed.

Lemma article_partition_witness :
  exists a,
    article (Arrived (Response.mk 221 "0 <id> head" ["From: a"; "To: b"]))
    = Ok a
    /\ forallb (fun h => negb (blank h)) a.(headers) = true
    /\ ((["From: a"; "To: b"] = a.(headers) /\ a.(body) = [])
        \/ exists separator,
            blank separator = true
            /\ ["From: a"; "To: b"]
               = (a.(headers) ++ separator :: a.(body))%list).
Proof.
  apply (article_partition
           (Response.mk 221 "0 <id> head" ["From: a"; "To: b"])).
  reflexivity.
Defined.

(** X8: [article] delivers an article only for a response whose status is
    the article-retrieved one; a response of any status other than that
    and the no-such-article one is turned into the unexpected-response
    error that carries it. *)
Theorem article_delivers_only_retrieved :
  (forall o a,
      article o = Ok a ->
      exists response,
        o = Arrived response
        /\ response.(Response.status) = Response.ARTICLE_RETRIEVED)
  /\ (forall response,
        response.(Response.status) <> Response.NO_SUCH_ARTICLE ->
        response.(Response.status) <> Response.ARTICLE_RETRIEVED ->
        article (Arrived response) = Err (Unexpected response)).
Proof.
  split.
  - intros [e|response] a H; [discriminate H|].
    exists response. split; [reflexivity|]. unfold article in H.
    destruct (Response.NO_SUCH_ARTICLE =? _)%Z; [discriminate H|].
    destruct (Response.ARTICLE_RETRIEVED =? _)%Z eqn:Hs;
      [|discriminate H].
    apply Z.eqb_eq in Hs. now symmetry.
  - intros response H430 H221. unfold article.
    destruct (Z.eqb_spec Response.NO_SUCH_ARTICLE
                response.(Response.status)) as [Heq|_];
      [now symmetry in Heq|].
    destruct (Z.eqb_spec Response.ARTICLE_RETRIEVED
                response.(Response.status)) as [Heq|_];
      [now symmetry in Heq | reflexivity].
Qed.

Lemma article_delivers_only_retrieved_witness :
  exists response,
    Arrived (Response.mk 221 "0 <id>" ["a"]) = Arrived response
    /\ response.(Response.status) = Response.ARTICLE_RETRIEVED.
Proof.
  apply (proj1 article_delivers_only_retrieved
           (Arrived (Response.mk 221 "0 <id>" ["a"])) (mkArticle ["a"] [])).
  reflexivity.
Defined.

(** X9: [group] delivers a group only for a response whose status is the
    group-selected one; the no-such-group status gives the no-such-group
    error, and any other status the unexpected-response error that
    carries the response. *)
Theorem group_delivers_only_selected :
  (forall o g,
      group o = Ok g ->
      exists response,
        o = Arrived response
        /\ response.(Response.status) = Response.GROUP_SELECTED)
  /\ (forall response,
        response.(Response.status) = Response.NO_SUCH_GROUP ->
        group (Arrived response) = Err NoSuchGroup)
  /\ (forall response,
        response.(Response.status) <> Response.NO_SUCH_GROUP ->
        response.(Response.status) <> Response.GROUP_SELECTED ->
        group (Arrived response) = Err (Unexpected response)).
Proof.
  split; [|split].
  - intros [e|response] g H; [discriminate H|].
    exists response. split; [reflexivity|]. unfold group in H.
    destruct (Response.NO_SUCH_GROUP =? _)%Z; [discriminate H|].
    destruct (Response.GROUP_SELECTED =? _)%Z eqn:Hs; [|discriminate H].
    apply Z.eqb_eq in Hs. now symmetry.
  - intros response Hs. unfold group. now rewrite Hs.
  - intros response H411 H211. unfold group.
    destruct (Z.eqb_spec Response.NO_SUCH_GROUP
                response.(Response.status)) as [Heq|_];
      [now symmetry in Heq|].
    destruct (Z.eqb_spec Response.GROUP_SELECTED
                response.(Response.status)) as [Heq|_];
      [now symmetry in Heq | reflexivity].
Qed.

Lemma group_delivers_only_selected_witness :
  group (Arrived (Response.mk 411 "No such group" [])) = Err NoSuchGroup.
Proof.
  apply (proj1 (proj2 group_delivers_only_selected)
           (Response.mk 411 "No such group" [])).
  reflexivity.
Defined.

(** X10: the name of a group delivered holds no space. *)
Theorem group_name_without_space (o : outcome) (g : Group) (n : string) :
  group o = Ok g ->
  g.(name) = Some n ->
  Says.has " " n = false.
Proof.
  intros Hg Hn. destruct o as [e|response]; [discriminate Hg|].
  unfold group in Hg.
  destruct (Response.NO_SUCH_GROUP =? _)%Z; [discriminate Hg|].
  destruct (negb _); [discriminate Hg|].
  injection Hg as <-.
  change (nth_error (JS.split " " response.(Response.message)) 3 = Some n)
    in Hn.
  apply nth_error_In in Hn.
  pose proof (split_char_free " " response.(Response.message)) as Hfree.
  rewrite Forall_forall in Hfree. now apply Hfree.
Qed.

Lemma group_name_without_space_witness :
  Says.has " " "misc.test" = false.
Proof.
  apply (group_name_without_space
           (Arrived (Response.mk 211 "3 100 102 misc.test" []))
           (mkGroup (Some "misc.test") (JS.Num 3) (JS.Num 100) (JS.Num 102))
           "misc.test");
    reflexivity.
Defined.

End ArticleGroupMore.

(* ================================================================= *)
(** ** More on objects *)

Section ObjectsMore.

Context {V : Type}.

Lemma get_update (k k' : string) (v : V) (o : JS.object V) :
  JS.get k' (JS.update k v o)
  = if String.eqb k' k
    then match JS.get k o with
         | Some _ => Some v
         | None => None
         end
    else JS.get k' o.
Proof.
  induction o as [|[k0 v0] o IH]; simpl.
  - now destruct (String.eqb k' k).
  - destruct (String.eqb_spec k k0) as [->|Hk0]; simpl.
    + now destruct (String.eqb k' k0).
    + destruct (String.eqb_spec k' k0) as [->|Hk'].
      * destruct (String.eqb_spec k0 k) as [->|_]; [contradiction|reflexivity].
      * exact IH.
Qed.

Lemma get_insert_index (n : N) (k k' : string) (v : V) (o : JS.object V) :
  JS.get k o = None ->
  JS.get k' (JS.insert_index n k v o)
  = if String.eqb k' k then Some v else JS.get k' o.
Proof.
  induction o as [|[k0 v0] o IH]; intros Hk; simpl.
  - reflexivity.
  - simpl in Hk. destruct (String.eqb_spec k k0) as [->|Hk0]; [discriminate|].
    destruct (JS.array_index k0) as [n0|].
    + destruct (n <? n0)%N; simpl.
      * reflexivity.
      * destruct (String.eqb_spec k' k0) as [->|_].
        -- destruct (String.eqb_spec k0 k) as [->|_];
             [contradiction|reflexivity].
        -- now apply IH.
    + reflexivity.
Qed.

(** Reading after an assignment: the key assigned holds the value, every
    other key what it held; [__proto__] apart, which nothing changes. *)
Lemma get_set (k k' : string) (v : V) (o : JS.object V) :
  k <> "__proto__" ->
  JS.get k' (JS.set k v o) = if String.eqb k' k then Some v else JS.get k' o.
Proof.
  intros Hproto. unfold JS.set. apply String.eqb_neq in Hproto.
  rewrite Hproto. destruct (JS.get k o) as [x|] eqn:Hk.
  - rewrite get_update, Hk. reflexivity.
  - destruct (JS.array_index k) as [n|].
    + now apply get_insert_index.
    + rewrite get_app. simpl.
      destruct (String.eqb_spec k' k) as [->|_].
      * now rewrite Hk.
      * now destruct (JS.get k' o).
Qed.

Lemma get_copy (source : JS.object V) :
  forall target k,
    NoDup (JS.keys source) ->
    k <> "__proto__" ->
    JS.get k
      (fold_left (fun t kv => JS.set (fst kv) (snd kv) t) source target)
    = match JS.get k source with
      | Some v => Some v
      | None => JS.get k target
      end.
Proof.
  induction source as [|[k0 v0] source IH]; intros target k Hnd Hk;
    [reflexivity|].
  cbn [fold_left fst snd]. simpl in Hnd.
  inversion Hnd as [|? ? Hfresh Hnd']; subst.
  rewrite IH by assumption. simpl.
  destruct (String.eqb_spec k k0) as [->|Hne].
  - rewrite (get_absent _ _ Hfresh), get_set by exact Hk.
    now rewrite String.eqb_refl.
  - destruct (JS.get k source); [reflexivity|].
    destruct (String.eqb_spec k0 "__proto__") as [->|Hp].
    + reflexivity.
    + rewrite get_set by exact Hp.
      now destruct (String.eqb_spec k k0).
Qed.

End ObjectsMore.

(* ================================================================= *)
(** ** More on overview parsing *)

Section OverviewMore.

Local Open Scope list_scope.

Import NNTP.

Variable format : JS.object bool.
Hypothesis Hmethod : JS.get "hasOwnProperty" format = None.

Lemma parse_fields_keys (fields : JS.object bool) :
  forall parts msg m,
    incl (JS.keys fields) (JS.keys format) ->
    NoDup (JS.keys msg ++ JS.keys fields) ->
    Forall Spec.ordinary_key (JS.keys fields) ->
    parse_fields format fields parts msg = JS.Return m ->
    JS.keys m = JS.keys msg ++ JS.keys fields.
Proof.
  induction fields as [|[k b] fields IH];
    intros parts msg m Hincl Hnd Hord Hrun.
  - simpl in Hrun. injection Hrun as <-. simpl. now rewrite app_nil_r.
  - cbn [parse_fields] in Hrun.
    rewrite (hasOwnProperty_own format k Hmethod) in Hrun
      by (apply Hincl; now left).
    destruct (field_value b (hd_error parts)) as [v|ex];
      [|discriminate Hrun].
    simpl in Hnd, Hord. inversion Hord as [|? ? Hk Hrest]; subst.
    destruct (NoDup_keys_step k v msg _ Hnd) as [Hfresh Hnd'].
    rewrite set_fresh in Hrun by assumption.
    apply IH in Hrun; [|intros x Hx; apply Hincl; now right|exact Hnd'
                      |exact Hrest].
    rewrite Hrun, keys_app. simpl. now rewrite <- app_assoc.
Qed.

Lemma parse_fields_throws (fields : JS.object bool) :
  forall parts msg i field,
    incl (JS.keys fields) (JS.keys format) ->
    nth_error fields i = Some (field, true) ->
    List.length parts <= i ->
    parse_fields format fields parts msg = JS.Throw JS.TypeError.
Proof.
  induction fields as [|[k b] fields IH];
    intros parts msg i field Hincl Hi Hlen.
  - destruct i; discriminate Hi.
  - cbn [parse_fields].
    rewrite (hasOwnProperty_own format k Hmethod) by (apply Hincl; now left).
    destruct i as [|i].
    + injection Hi as -> ->. destruct parts; [reflexivity|].
      simpl in Hlen. lia.
    + destruct (field_value b (hd_error parts)) as [v|[]]; [|reflexivity].
      apply (IH _ _ i field); [intros x Hx; apply Hincl; now right|exact Hi|].
      destruct parts; simpl in *; lia.
Qed.

Lemma parseOverview_throws (overview : list string) (line : string) :
  In line overview ->
  parse_line format line = JS.Throw JS.TypeError ->
  parseOverview overview format = JS.Throw JS.TypeError.
Proof.
  induction overview as [|l overview IH]; intros Hin Hline; [contradiction|].
  cbn [parseOverview].
  destruct (parse_line format l) as [msg|[]] eqn:Hl; [|reflexivity].
  destruct Hin as [->|Hin]; [congruence|].
  now rewrite IH.
Qed.

End OverviewMore.

Section OverviewProperties.

Import NNTP.

Lemma xover_xzver (format : JS.object bool) (o : outcome) :
  xzver format o = xover format o.
Proof. reflexivity. Qed.

Lemma xover_parsed_lines (format : JS.object bool) (response : Response.t)
    (messages : list message) :
  xover format (Arrived response) = JS.Return (Ok messages) ->
  Forall2
    (fun line msg =>
       parse_line (JS.xtend [[("number", false)]; format]) line
       = JS.Return msg)
    response.(Response.lines) messages.
Proof.
  intros Hrun. unfold xover in Hrun.
  destruct (parseOverview _ _) as [ms|] eqn:Hparse; [|discriminate Hrun].
  injection Hrun as <-. now apply parseOverview_rows.
Qed.

(** X11: the rows [xover] and [xzver] deliver are the lines of the
    response parsed one by one, in the order of the lines: as many rows
    as lines, whatever the format and the status. *)
Theorem xover_rows_follow_lines (format : JS.object bool)
    (response : Response.t) (messages : list message) :
  xover format (Arrived response) = JS.Return (Ok messages) ->
  Forall2
    (fun line msg =>
       parse_line (JS.xtend [[("number", false)]; format]) line
       = JS.Return msg)
    response.(Response.lines) messages
  /\ List.length messages = List.length response.(Response.lines)
  /\ xzver format (Arrived response) = JS.Return (Ok messages).
Proof.
  intros Hrun. pose proof (xover_parsed_lines _ _ _ Hrun) as Hrows.
  split; [exact Hrows|]. split.
  - symmetry. exact (Forall2_length Hrows).
  - now rewrite xover_xzver.
Qed.

Lemma xover_rows_follow_lines_witness :
  Forall2
    (fun line msg =>
       parse_line (JS.xtend [[("number", false)]; [("subject", false)]]) line
       = JS.Return msg)
    ["1"; "2" ++ JS.TABS ++ "b" ++ JS.TABS ++ "more"]
    [[("number", Some "1"); ("subject", None)];
     [("number", Some "2"); ("subject", Some "b")]]
  /\ List.length
       [[("number", Some "1"); ("subject", @None string)];
        [("number", Some "2"); ("subject", Some "b")]]
     = List.length ["1"; "2" ++ JS.TABS ++ "b" ++ JS.TABS ++ "more"]
  /\ xzver [("subject", false)]
       (Arrived (Response.mk 423 "odd"
                   ["1"; "2" ++ JS.TABS ++ "b" ++ JS.TABS ++ "more"]))
     = JS.Return
         (Ok [[("number", Some "1"); ("subject", None)];
              [("number", Some "2"); ("subject", Some "b")]]).
Proof.
  apply (xover_rows_follow_lines [("subject", false)]
           (Response.mk 423 "odd"
              ["1"; "2" ++ JS.TABS ++ "b" ++ JS.TABS ++ "more"])).
  reflexivity.
Defined.

(** X12: for a format with no [number], [hasOwnProperty], [__proto__] or
    array-index key, every row delivered has exactly the keys [number]
    and then those of the format, in the format's order, however many
    parts its line has. *)
Theorem xover_row_keys (format : JS.object bool) (response : Response.t)
    (messages : list message) :
  Spec.plain_format format ->
  xover format (Arrived response) = JS.Return (Ok messages) ->
  Forall (fun msg => JS.keys msg = "number" :: JS.keys format) messages.
Proof.
  intros Hplain Hrun.
  pose proof (xover_parsed_lines _ _ _ Hrun) as Hrows. clear Hrun.
  rewrite (xtend_number format Hplain) in Hrows.
  destruct (plain_format_keys format Hplain) as [Hnd Hord].
  induction Hrows as [|line msg lines msgs Hline _ IH]; [constructor|].
  constructor; [|exact IH].
  unfold parse_line in Hline.
  apply parse_fields_keys in Hline;
    [exact Hline | now apply plain_format_method | apply incl_refl
    | exact Hnd | exact Hord].
Qed.

Lemma plain_subject_from :
  Spec.plain_format [("subject", false); ("from", true)].
Proof.
  split.
  - repeat constructor; simpl; intuition discriminate.
  - repeat constructor; discriminate.
Qed.

Lemma xover_row_keys_witness :
  Forall (fun msg => JS.keys msg = ["number"; "subject"; "from"])
    [[("number", Some "7"); ("subject", Some "s"); ("from", Some "f")]].
Proof.
  apply (xover_row_keys [("subject", false); ("from", true)]
           (Response.mk 224 "overview"
              ["7" ++ JS.TABS ++ "s" ++ JS.TABS ++ "From: f" ++ JS.TABS ++ "x"])
           _ plain_subject_from).
  reflexivity.
Defined.

(** X13: for such a format, a line that has no part left for a key marked
    full makes [xover] and [xzver] throw a TypeError: no row at all is
    delivered, not those of the other lines either. *)
Theorem xover_throws_on_short_line (format : JS.object bool)
    (response : Response.t) (line : string) (i : nat) (field : string) :
  Spec.plain_format format ->
  In line response.(Response.lines) ->
  nth_error format i = Some (field, true) ->
  List.length (JS.split JS.TABS line) <= S i ->
  xover format (Arrived response) = JS.Throw JS.TypeError
  /\ xzver format (Arrived response) = JS.Throw JS.TypeError.
Proof.
  intros Hplain Hin Hi Hlen.
  assert (H : xover format (Arrived response) = JS.Throw JS.TypeError).
  { unfold xover. rewrite (xtend_number format Hplain).
    rewrite (parseOverview_throws _ _ line Hin); [reflexivity|].
    unfold parse_line.
    apply (parse_fields_throws _ (plain_format_method format Hplain)
             _ _ _ (S i) field); [apply incl_refl|exact Hi|exact Hlen]. }
  split; [exact H | now rewrite xover_xzver].
Qed.

Lemma xover_throws_on_short_line_witness :
  xover [("subject", false); ("from", true)]
    (Arrived (Response.mk 224 "overview"
                ["7" ++ JS.TABS ++ "s" ++ JS.TABS ++ "From: f";
                 "8" ++ JS.TABS ++ "t"]))
  = JS.Throw JS.TypeError
  /\ xzver [("subject", false); ("from", true)]
       (Arrived (Response.mk 224 "overview"
                   ["7" ++ JS.TABS ++ "s" ++ JS.TABS ++ "From: f";
                    "8" ++ JS.TABS ++ "t"]))
     = JS.Throw JS.TypeError.
Proof.
  apply (xover_throws_on_short_line _ _ ("8" ++ JS.TABS ++ "t") 1 "from"
           plain_subject_from).
  - right. now left.
  - reflexivity.
  - simpl. lia.
Defined.

End OverviewProperties.

(* ================================================================= *)
(** ** Fields marked full, and the flags of the format *)

Section FullFields.

Import NNTP.

Lemma indexOf_absent (c : ascii) (s : string) :
  Says.has c s = false -> JS.indexOf c s = (-1)%Z.
Proof.
  induction s as [|d s IH]; simpl; [reflexivity|].
  intros H. apply orb_false_iff in H as [Hd Hs].
  now rewrite Hd, (IH Hs).
Qed.

Lemma indexOf_first (c : ascii) (a b : string) :
  Says.has c a = false ->
  JS.indexOf c (a ++ String c b) = Z.of_nat (String.length a).
Proof.
  induction a as [|d a IH]; intros H.
  - simpl. now rewrite Ascii.eqb_refl.
  - simpl in H. apply orb_false_iff in H as [Hd Ha].
    change (String d a ++ String c b) with (String d (a ++ String c b)).
    cbn [JS.indexOf]. rewrite Hd, (IH Ha).
    cbn [String.length].
    destruct (Z.of_nat (String.length a)) eqn:Hn; lia.
Qed.

Lemma substring_0_long (s : string) :
  forall n, String.length s <= n -> substring 0 n s = s.
Proof.
  induction s as [|c s IH]; intros [|n] Hlen; simpl in *;
    try reflexivity; try lia.
  now rewrite IH by lia.
Qed.

(** X14: a part [name:value] read for a key marked full gives the value
    trimmed, the name holding no colon; a part that holds no colon at all
    is given whole, trimmed. *)
Theorem full_field_after_first_colon (name value : string) :
  Says.has ":" name = false ->
  field_value true (Some (name ++ ":" ++ value))
  = JS.Return (Some (JS.trim value))
  /\ field_value true (Some name) = JS.Return (Some (JS.trim name)).
Proof.
  intros Hname. unfold field_value, after_colon. split.
  - change (name ++ ":" ++ value) with (name ++ String ":" value).
    rewrite indexOf_first by exact Hname.
    unfold JS.substring_from.
    replace (Z.to_nat (Z.of_nat (String.length name) + 1))
      with (String.length (name ++ ":"))
      by (rewrite length_append; simpl; lia).
    change (name ++ String ":" value) with (name ++ ":" ++ value).
    rewrite <- append_assoc, substring_drop, substring_0_long;
      [reflexivity|].
    rewrite !length_append. lia.
  - rewrite indexOf_absent by exact Hname.
    unfold JS.substring_from. simpl Z.to_nat.
    now rewrite substring_all.
Qed.

Lemma full_field_after_first_colon_witness :
  field_value true (Some ("Xref" ++ ":" ++ " news.example misc.test:42 "))
  = JS.Return (Some (JS.trim " news.example misc.test:42 "))
  /\ field_value true (Some "Xref") = JS.Return (Some (JS.trim "Xref")).
Proof.
  apply (full_field_after_first_colon "Xref" " news.example misc.test:42 ").
  reflexivity.
Defined.

(** X15: in the format [xover] and [xzver] parse against, every key of
    the caller keeps the caller's flag, [number] included when the caller
    has it; [number] is short when the caller has it not; and there is no
    other key. *)
Theorem xover_format_flags (format : JS.object bool) :
  NoDup (JS.keys format) ->
  (forall k flag,
      k <> "__proto__" ->
      JS.get k format = Some flag ->
      JS.get k (JS.xtend [[("number", false)]; format]) = Some flag)
  /\ (JS.get "number" format = None ->
      JS.get "number" (JS.xtend [[("number", false)]; format]) = Some false)
  /\ (forall k,
        k <> "__proto__" ->
        k <> "number" ->
        JS.get k format = None ->
        JS.get k (JS.xtend [[("number", false)]; format]) = None).
Proof.
  intros Hnd. unfold JS.xtend. cbn [fold_left].
  change (JS.set (fst ("number", false)) (snd ("number", false)) [])
    with [("number", false)].
  split; [|split].
  - intros k flag Hk Hget. now rewrite get_copy, Hget.
  - intros Hget. rewrite get_copy, Hget by (assumption || discriminate).
    reflexivity.
  - intros k Hk Hnumber Hget. rewrite get_copy, Hget by assumption.
    simpl. now destruct (String.eqb_spec k "number").
Qed.

Lemma xover_format_flags_witness :
  JS.get "number" (JS.xtend [[("number", false)];
                             [("from", true); ("number", true)]])
  = Some true.
Proof.
  refine (proj1 (xover_format_flags [("from", true); ("number", true)] _)
            "number" true _ _).
  - repeat constructor; simpl; intuition discriminate.
  - discriminate.
  - reflexivity.
Defined.

End FullFields.

(* ================================================================= *)
(** ** [overviewFormat] *)

Section OverviewFormatProperties.

Import NNTP OverviewFormat.

Lemma toLowerCase_append (a b : string) :
  toLowerCase (a ++ b) = toLowerCase a ++ toLowerCase b.
Proof. induction a as [|c a IH]; simpl; [reflexivity | now rewrite IH]. Qed.

Lemma length_toLowerCase (s : string) :
  String.length (toLowerCase s) = String.length s.
Proof. induction s as [|c s IH]; simpl; [reflexivity | now rewrite IH]. Qed.

Lemma substring_snoc (c : ascii) (a : string) :
  forall m n,
    m <= String.length a ->
    String.length a - m <= n ->
    substring m (S n) (a ++ String c EmptyString)
    = substring m n a ++ String c EmptyString.
Proof.
  induction a as [|x a IH]; intros m n Hm Hn.
  - simpl in Hm. assert (m = 0) as -> by lia. now destruct n.
  - destruct m as [|m].
    + destruct n as [|n]; [simpl in Hn; lia|].
      change (String x a ++ String c EmptyString)
        with (String x (a ++ String c EmptyString)).
      cbn [substring]. rewrite (IH 0 n) by (simpl in *; lia).
      reflexivity.
    + change (String x a ++ String c EmptyString)
        with (String x (a ++ String c EmptyString)).
      cbn [substring]. apply IH; simpl in *; lia.
Qed.

Lemma substr_neg_snoc (c : ascii) (a : string) (n : nat) :
  JS.substr_neg (S n) (a ++ String c EmptyString)
  = JS.substr_neg n a ++ String c EmptyString.
Proof.
  unfold JS.substr_neg. rewrite length_append. simpl String.length.
  replace (String.length a + 1 - S n) with (String.length a - n) by lia.
  apply substring_snoc; lia.
Qed.

Lemma not_full_before_colon (x : string) : x ++ ":" <> ":full".
Proof.
  destruct x as [|a [|b [|c [|d [|e x]]]]]; simpl; intros H;
    try discriminate H.
  destruct x; discriminate H.
Qed.

Lemma entry_short (name : string) :
  Says.entry (name ++ ":") = (toLowerCase name, false).
Proof.
  unfold Says.entry, Says.full_line.
  rewrite substr_neg_snoc, toLowerCase_append.
  change (toLowerCase ":") with ":".
  destruct (String.eqb_spec (toLowerCase (JS.substr_neg 4 name) ++ ":")
              ":full") as [Heq|_].
  - now apply not_full_before_colon in Heq.
  - change 1 with (String.length ":"). now rewrite slice0_neg_append.
Qed.

Lemma entry_full (name suffix : string) :
  toLowerCase suffix = ":full" ->
  Says.entry (name ++ suffix) = (toLowerCase name, true).
Proof.
  intros Hsuffix.
  assert (Hlen : String.length suffix = 5).
  { now rewrite <- length_toLowerCase, Hsuffix. }
  unfold Says.entry, Says.full_line. rewrite <- Hlen.
  now rewrite substr_neg_append, slice0_neg_append, Hsuffix.
Qed.

Lemma entry_render (field : string * bool) :
  Says.entry (Says.render field) = Says.lowered field.
Proof.
  destruct field as [name [|]]; unfold Says.render, Says.lowered; simpl.
  - now apply entry_full.
  - apply entry_short.
Qed.

Lemma format_step_entry (format : JS.object bool) (line : string) :
  format_step format line
  = array_set (fst (Says.entry line)) (snd (Says.entry line)) format.
Proof.
  unfold format_step, Says.entry, Says.full_line.
  now destruct (String.eqb _ ":full").
Qed.

(** Lines whose entries have keys that are distinct, not yet in the
    format, and plain are appended to the format one by one. *)
Lemma format_of_lines (lines : list string) :
  forall format,
    NoDup (JS.keys format ++ map fst (map Says.entry lines)) ->
    Forall Says.plain_key (map fst (map Says.entry lines)) ->
    fold_left format_step lines format
    = (format ++ map Says.entry lines)%list.
Proof.
  induction lines as [|line lines IH]; intros format Hnd Hplain.
  - simpl. now rewrite app_nil_r.
  - cbn [fold_left map] in *.
    inversion Hplain as [|? ? [Hord Hlength] Hrest]; subst.
    destruct (Says.entry line) as [k v] eqn:He.
    destruct (NoDup_keys_step k v format _ Hnd) as [Hfresh Hnd'].
    rewrite format_step_entry, He. cbn [fst snd] in *.
    unfold array_set. apply String.eqb_neq in Hlength. rewrite Hlength.
    rewrite set_fresh by assumption.
    rewrite IH by assumption. now rewrite <- app_assoc.
Qed.

(** X16: from the lines of [LIST OVERVIEW.FMT], each a field name and a
    colon, with [full] after it or not, the names differing also when
    lowered and being plain keys, [overviewFormat] delivers the lowered
    names in the order of the lines, each with the flag that tells
    whether [full] followed. *)
Theorem overviewFormat_reads_fields (response : Response.t)
    (fields : list (string * bool)) :
  response.(Response.lines) = map Says.render fields ->
  NoDup (map fst (map Says.lowered fields)) ->
  Forall Says.plain_key (map fst (map Says.lowered fields)) ->
  overviewFormat (Arrived response) = Ok (map Says.lowered fields).
Proof.
  intros Hlines Hnd Hplain. unfold overviewFormat. rewrite Hlines.
  assert (He : map Says.entry (map Says.render fields)
               = map Says.lowered fields).
  { rewrite map_map. apply map_ext. apply entry_render. }
  rewrite format_of_lines; rewrite He; [reflexivity|exact Hnd|exact Hplain].
Qed.

Lemma plain_keys_subject_xref :
  NoDup ["subject"; "xref"] /\ Forall Says.plain_key ["subject"; "xref"].
Proof.
  split.
  - repeat constructor; simpl; intuition discriminate.
  - repeat constructor; discriminate.
Qed.

Lemma overviewFormat_reads_fields_witness :
  overviewFormat (Arrived (Response.mk 215 "Order of fields"
                             ["Subject:"; "Xref:full"]))
  = Ok [("subject", false); ("xref", true)].
Proof.
  apply (overviewFormat_reads_fields
           (Response.mk 215 "Order of fields" ["Subject:"; "Xref:full"])
           [("Subject", false); ("Xref", true)]).
  - reflexivity.
  - exact (proj1 plain_keys_subject_xref).
  - exact (proj2 plain_keys_subject_xref).
Defined.

Lemma substring_rejoin (s : string) :
  forall m n,
    String.length s - m <= n ->
    substring 0 m s ++ substring m n s = s.
Proof.
  induction s as [|c s IH]; intros m n Hn.
  - now destruct m, n.
  - destruct m as [|m].
    + change (substring 0 0 (String c s)) with EmptyString.
      simpl in Hn. now rewrite substring_0_long by (simpl; lia).
    + cbn [substring]. change (String c ?a ++ ?b) with (String c (a ++ b)).
      rewrite IH by (simpl in Hn; lia). reflexivity.
Qed.

(** The test [line.substr(-5, 5).toLowerCase() === ':full'] holds exactly
    of the lines that end in [:full], in any case of letters. *)
Lemma full_line_iff (line : string) :
  Says.full_line line = true
  <-> exists name suffix,
      line = name ++ suffix /\ toLowerCase suffix = ":full".
Proof.
  unfold Says.full_line. split.
  - intros H. apply String.eqb_eq in H.
    exists (JS.slice0_neg 5 line), (JS.substr_neg 5 line).
    split; [|exact H].
    unfold JS.slice0_neg, JS.substr_neg. symmetry.
    apply substring_rejoin. lia.
  - intros [name [suffix [-> H]]].
    assert (Hlen : String.length suffix = 5).
    { now rewrite <- length_toLowerCase, H. }
    rewrite <- Hlen, substr_neg_append, H. reflexivity.
Qed.



(** X18: a format delivered by [overviewFormat] from such lines, none of
    the lowered names being [number] or [hasOwnProperty], can be handed to
    [xover]: every row delivered holds the first part of its line under
    [number] and the parts after it under the lowered names, in the order
    of the lines of the format, each read according to its flag. *)
Theorem overviewFormat_then_xover (listing : Response.t)
    (fields : list (string * bool)) (format : JS.object bool)
    (response : Response.t) (messages : list message) :
  listing.(Response.lines) = map Says.render fields ->
  NoDup ("number" :: "hasOwnProperty" :: map fst (map Says.lowered fields)) ->
  Forall Says.plain_key (map fst (map Says.lowered fields)) ->
  overviewFormat (Arrived listing) = Ok format ->
  xover format (Arrived response) = JS.Return (Ok messages) ->
  format = map Says.lowered fields
  /\ Forall2 (Spec.row_of format) response.(Response.lines) messages.
Proof.
  intros Hlines Hnd Hplain Hformat Hrun.
  assert (Hnd' : NoDup (map fst (map Says.lowered fields))).
  { inversion Hnd as [|? ? _ H1]; subst. now inversion H1. }
  unfold overviewFormat in Hformat. rewrite Hlines in Hformat.
  assert (He : map Says.entry (map Says.render fields)
               = map Says.lowered fields).
  { rewrite map_map. apply map_ext. apply entry_render. }
  rewrite format_of_lines in Hformat; rewrite He in *;
    [|exact Hnd'|exact Hplain].
  injection Hformat as <-. split; [reflexivity|].
  assert (Hpf : Spec.plain_format (map Says.lowered fields)).
  { split; [exact Hnd|].
    eapply Forall_impl; [|exact Hplain]. now intros k [Hord _]. }
  pose proof (xover_parsed_lines _ _ _ Hrun) as Hrows.
  rewrite (xtend_number _ Hpf) in Hrows.
  eapply Forall2_impl; [|exact Hrows].
  intros line msg Hline. now apply parse_line_row.
Qed.

End OverviewFormatProperties.

Lemma overviewFormat_then_xover_witness :
  [("subject", false); ("xref", true)]
  = map Says.lowered [("Subject", false); ("Xref", true)]
  /\ Forall2 (Spec.row_of [("subject", false); ("xref", true)])
       ["7" ++ JS.TABS ++ "hi" ++ JS.TABS ++ "Xref: a:1"]
       [[("number", Some "7"); ("subject", Some "hi");
         ("xref", Some "a:1")]].
Proof.
  apply (overviewFormat_then_xover
           (Response.mk 215 "Order of fields" ["Subject:"; "Xref:full"])
           [("Subject", false); ("Xref", true)]
           [("subject", false); ("xref", true)]
           (Response.mk 224 "overview"
              ["7" ++ JS.TABS ++ "hi" ++ JS.TABS ++ "Xref: a:1"])).
  - reflexivity.
  - repeat constructor; simpl; intuition discriminate.
  - repeat constructor; discriminate.
  - reflexivity.
  - reflexivity.
Defined.

(* ================================================================= *)
(** ** The authentication exchange *)

Section ExchangeProperties.

Import Exchange.

(** X19: [authenticate] writes the password line only after a response
    of status 381 to the user line: when the first outcome is an error, a
    response of another status, or never comes, the user line is all that
    is written. *)
Theorem authenticate_password_needs_381 (w : world) :
  (forall response rest,
      w.(incoming) = NNTP.Arrived response :: rest ->
      response.(Response.status) <> 381%Z) ->
  written (snd (authenticate deliver w))
  = (w.(written) ++ [Says.USER (Says.username_of w)])%list.
Proof.
  intros Hno. unfold authenticate, authInfo, getResponse, socket_write.
  cbn [incoming self written].
  destruct (incoming w) as [|[e|response] rest] eqn:Hin; try reflexivity.
  destruct (Z.eqb_spec (Response.status response) 381) as [Heq|_];
    [|reflexivity].
  now destruct (Hno response rest eq_refl).
Qed.

Lemma authenticate_password_needs_381_witness :
  written
    (snd (authenticate deliver
            (mkWorld
               (NNTP.mkClient
                  (NNTP.mkOptions "news.example" 119 false (Some "joe")
                     (Some "secret"))
                  (Some true))
               []
               [NNTP.Arrived (Response.mk 281 "Authentication accepted" [])])))
  = ["AUTHINFO USER joe" ++ JS.CRLF].
Proof.
  apply (authenticate_password_needs_381
           (mkWorld
              (NNTP.mkClient
                 (NNTP.mkOptions "news.example" 119 false (Some "joe")
                    (Some "secret"))
                 (Some true))
              []
              [NNTP.Arrived (Response.mk 281 "Authentication accepted" [])])).
  intros response rest Hin. injection Hin as <- _. discriminate.
Defined.

(** X20: when the response to the user line has status 381 and no
    password is configured, [authenticate] calls back with the
    password-required error, having written the user line only; the
    outcomes to come are left untouched. *)
Theorem authenticate_without_password (w : world) (response : Response.t)
    (rest : list NNTP.outcome) :
  w.(incoming) = NNTP.Arrived response :: rest ->
  response.(Response.status) = 381%Z ->
  Says.password_of w = None ->
  authenticate deliver w
  = (Some (Some PasswordRequired, None),
     mkWorld w.(self)
       (w.(written) ++ [Says.USER (Says.username_of w)])%list rest).
Proof.
  intros Hin Hstatus Hpw. unfold Says.password_of in Hpw.
  unfold authenticate, authInfo, getResponse, socket_write.
  cbn [incoming self written]. rewrite Hin, Hstatus.
  cbn [Z.eqb Pos.eqb]. now rewrite Hpw.
Qed.

Lemma authenticate_without_password_witness :
  authenticate deliver
    (mkWorld
       (NNTP.mkClient
          (NNTP.mkOptions "news.example" 119 false (Some "joe") None)
          (Some true))
       []
       [NNTP.Arrived (Response.mk 381 "Password required" [])])
  = (Some (Some PasswordRequired, None),
     mkWorld
       (NNTP.mkClient
          (NNTP.mkOptions "news.example" 119 false (Some "joe") None)
          (Some true))
       ["AUTHINFO USER joe" ++ JS.CRLF] []).
Proof.
  apply (authenticate_without_password
           (mkWorld
              (NNTP.mkClient
                 (NNTP.mkOptions "news.example" 119 false (Some "joe") None)
                 (Some true))
              []
              [NNTP.Arrived (Response.mk 381 "Password required" [])])
           (Response.mk 381 "Password required" []) []);
    reflexivity.
Defined.

(** X21: when the response to the user line has status 381 and a password
    is configured, [authenticate] writes the user line and then the
    password line, and hands the outcome of the password line to the
    callback as it is: an error as the error, a response of any status as
    the result. *)
Theorem authenticate_with_password (w : world) (response : Response.t)
    (o : NNTP.outcome) (rest : list NNTP.outcome) (p : string) :
  w.(incoming) = NNTP.Arrived response :: o :: rest ->
  response.(Response.status) = 381%Z ->
  Says.password_of w = Some p ->
  authenticate deliver w
  = (Some (from_getResponse o),
     mkWorld w.(self)
       (w.(written) ++ [Says.USER (Says.username_of w); Says.PASS p])%list
       rest).
Proof.
  intros Hin Hstatus Hpw. unfold Says.password_of in Hpw.
  unfold authenticate, authInfo, getResponse, socket_write.
  cbn [incoming self written]. rewrite Hin, Hstatus.
  cbn [Z.eqb Pos.eqb]. rewrite Hpw. cbn [incoming self written].
  unfold deliver. now rewrite <- app_assoc.
Qed.

Lemma authenticate_with_password_witness :
  authenticate deliver
    (mkWorld
       (NNTP.mkClient
          (NNTP.mkOptions "news.example" 119 false (Some "joe")
             (Some "secret"))
          (Some true))
       []
       [NNTP.Arrived (Response.mk 381 "Password required" []);
        NNTP.Arrived (Response.mk 481 "Authentication failed" [])])
  = (Some (None, Some (Response.mk 481 "Authentication failed" [])),
     mkWorld
       (NNTP.mkClient
          (NNTP.mkOptions "news.example" 119 false (Some "joe")
             (Some "secret"))
          (Some true))
       ["AUTHINFO USER joe" ++ JS.CRLF; "AUTHINFO PASS secret" ++ JS.CRLF]
       []).
Proof.
  apply (authenticate_with_password
           (mkWorld
              (NNTP.mkClient
                 (NNTP.mkOptions "news.example" 119 false (Some "joe")
                    (Some "secret"))
                 (Some true))
              []
              [NNTP.Arrived (Response.mk 381 "Password required" []);
               NNTP.Arrived (Response.mk 481 "Authentication failed" [])])
           (Response.mk 381 "Password required" [])
           (NNTP.Arrived (Response.mk 481 "Authentication failed" []))
           [] "secret");
    reflexivity.
Defined.

(** X22: with no user name configured, [connectAndAuthenticate] writes
    nothing: it hands the outcome of the greeting to the callback, the
    client being marked connected, on an error as on a greeting. *)
Theorem connectAndAuthenticate_without_username (w : world)
    (o : NNTP.outcome) (rest : list NNTP.outcome) :
  w.(incoming) = o :: rest ->
  Says.username_of w = None ->
  connectAndAuthenticate deliver w
  = (Some (from_getResponse o),
     mkWorld (NNTP.set_isConnected true w.(self)) w.(written) rest).
Proof.
  intros Hin Hu. unfold Says.username_of in Hu.
  unfold connectAndAuthenticate, connect, getResponse, NNTP.connect.
  rewrite Hin. cbn [self written incoming].
  cbn [NNTP.set_isConnected NNTP.client_options]. rewrite Hu.
  now destruct o.
Qed.

Lemma connectAndAuthenticate_without_username_witness :
  connectAndAuthenticate deliver
    (mkWorld (NNTP.mkClient NNTP.defaults None) []
       [NNTP.Arrived (Response.mk 200 "server ready" [])])
  = (Some (None, Some (Response.mk 200 "server ready" [])),
     mkWorld (NNTP.mkClient NNTP.defaults (Some true)) [] []).
Proof.
  apply (connectAndAuthenticate_without_username
           (mkWorld (NNTP.mkClient NNTP.defaults None) []
              [NNTP.Arrived (Response.mk 200 "server ready" [])])
           (NNTP.Arrived (Response.mk 200 "server ready" [])) []);
    reflexivity.
Defined.

(** X23: with a user name configured, [connectAndAuthenticate] goes on to
    [authenticate] after any greeting that arrives, whatever its status,
    from a client marked connected; when the greeting fails, it calls
    back with that error and writes nothing. *)
Theorem connectAndAuthenticate_with_username (w : world) (u : string)
    (rest : list NNTP.outcome) :
  Says.username_of w = Some u ->
  (forall greeting,
      w.(incoming) = NNTP.Arrived greeting :: rest ->
      connectAndAuthenticate deliver w
      = authenticate deliver
          (mkWorld (NNTP.set_isConnected true w.(self)) w.(written) rest))
  /\ (forall e,
        w.(incoming) = NNTP.Failed e :: rest ->
        connectAndAuthenticate deliver w
        = (Some (Some (Passed e), None),
           mkWorld (NNTP.set_isConnected true w.(self)) w.(written) rest)).
Proof.
  intros Hu. unfold Says.username_of in Hu. split.
  - intros greeting Hin.
    unfold connectAndAuthenticate, connect, getResponse, NNTP.connect.
    rewrite Hin. cbn [self written incoming NNTP.error_arg option_map].
    cbn [NNTP.set_isConnected NNTP.client_options]. now rewrite Hu.
  - intros e Hin.
    unfold connectAndAuthenticate, connect, getResponse, NNTP.connect.
    rewrite Hin. reflexivity.
Qed.

Lemma connectAndAuthenticate_with_username_witness :
  connectAndAuthenticate deliver
    (mkWorld
       (NNTP.mkClient
          (NNTP.mkOptions "news.example" 119 false (Some "joe") None)
          None)
       []
       [NNTP.Arrived (Response.mk 502 "Service unavailable" []);
        NNTP.Arrived (Response.mk 281 "Authentication accepted" [])])
  = authenticate deliver
      (mkWorld
         (NNTP.set_isConnected true
            (NNTP.mkClient
               (NNTP.mkOptions "news.example" 119 false (Some "joe") None)
               None))
         []
         [NNTP.Arrived (Response.mk 281 "Authentication accepted" [])]).
Proof.
  apply (proj1 (connectAndAuthenticate_with_username
                  (mkWorld
                     (NNTP.mkClient
                        (NNTP.mkOptions "news.example" 119 false (Some "joe")
                           None)
                        None)
                     []
                     [NNTP.Arrived (Response.mk 502 "Service unavailable" []);
                      NNTP.Arrived
                        (Response.mk 281 "Authentication accepted" [])])
                  "joe"
                  [NNTP.Arrived (Response.mk 281 "Authentication accepted" [])]
                  eq_refl)
           (Response.mk 502 "Service unavailable" [])).
  reflexivity.
Defined.

(** X24: with no user name configured, [authenticate] still writes a user
    line, with the word [undefined] for the name. *)
Theorem authenticate_undefined_username (w : world) :
  Says.username_of w = None ->
  exists more,
    written (snd (authenticate deliver w))
    = (w.(written)
       ++ ("AUTHINFO USER undefined" ++ JS.CRLF)%string :: more)%list.
Proof.
  intros Hu. unfold Says.username_of in Hu.
  unfold authenticate, authInfo, getResponse, socket_write. rewrite Hu.
  cbn [incoming self written].
  destruct (incoming w) as [|[e|response] rest]; try (now exists []).
  destruct (Response.status response =? 381)%Z; [|now exists []].
  destruct (NNTP.password _) as [p|]; [|now exists []].
  cbn [incoming self written].
  destruct rest as [|o rest]; cbn [written snd deliver];
    rewrite <- app_assoc; now eexists.
Qed.

Lemma authenticate_undefined_username_witness :
  exists more,
    written
      (snd (authenticate deliver
              (mkWorld (NNTP.mkClient NNTP.defaults (Some true)) [] [])))
    = ([] ++ ("AUTHINFO USER undefined" ++ JS.CRLF)%string :: more)%list.
Proof.
  apply (authenticate_undefined_username
           (mkWorld (NNTP.mkClient NNTP.defaults (Some true)) [] [])).
  reflexivity.
Defined.

End ExchangeProperties.
